(** * The activation entry point of the Malloy extension (Node host)

    A shallow embedding of [src/extension/node/extension_node.ts].

    The file is glue code: every line is a call into the editor host, into
    the language-client library or into a sibling module.  The embedding
    therefore keeps three things apart:

    - the _values_ that travel through the code (configuration values,
      option records, messages), as records and inductive types;
    - the _calls_ the code makes across its module boundary, as a type of
      operations [Op], each with the type of what it returns;
    - the _functions_ of the file, as programs [Prog] over these
      operations, with [Await] marking every [await] of the source.

    An interpreter gives the operations their meaning on a [World] and
    implements the run-to-completion discipline of the JavaScript event
    loop: a program runs until it returns, throws, or reaches an [await];
    what follows an [await] is parked and only runs in a later turn.  An
    execution is [activate] followed by the turns the host takes:
    configuration changes, requests of the language server, promises being
    settled, [deactivate].

    The properties come in three layers: what each function does when it
    runs ([exec]), what [activate] leaves behind, and what holds in every
    execution, by induction over programs and over turns. *)

From stdpp Require Import base option list gmap strings.

Open Scope string_scope.
Open Scope list_scope.

(** ** JavaScript values *)

(** Configuration values are untyped ([get] returns [unknown]); the code
    inspects them with a truthiness test and [typeof].  Numbers are kept
    as integers plus [NaN]: the only operations applied to a number here
    are those two, and a fractional number behaves like a nonzero one
    under both. *)
Inductive JsValue : Type :=
| VUndefined
| VNull
| VBool (b : bool)
| VNumber (n : Z)
| VNaN
| VString (s : string)
| VObject (tag : string).

(** [ToBoolean]: the falsy values are [undefined], [null], [false], [0],
    [NaN] and the empty string. *)
Definition truthy (v : JsValue) : bool :=
  match v with
  | VUndefined | VNull | VNaN => false
  | VBool b => b
  | VNumber n => negb (n =? 0)%Z
  | VString s => negb (String.eqb s "")
  | VObject _ => true
  end.

Definition typeof (v : JsValue) : string :=
  match v with
  | VUndefined => "undefined"
  | VNull => "object"
  | VBool _ => "boolean"
  | VNumber _ | VNaN => "number"
  | VString _ => "string"
  | VObject _ => "object"
  end.

(** The [TypeError] raised by a member access on [undefined]. *)
Definition TypeError (what : string) : JsValue :=
  VObject ("TypeError: " +:+ what).

(** ** Host and library data *)

(** [vscode.ExtensionContext]; what its [subscriptions] array holds is
    not modelled, see [perform]. *)
Record ExtensionContext : Type := { extensionPath : string }.

(** [context.asAbsolutePath(rel)], kept symbolic. *)
Inductive Path : Type :=
| asAbsolutePath (context : ExtensionContext) (relativePath : string).

(** [vscode.Uri.file(path)]. *)
Inductive Uri : Type :=
| Uri_file (path : string).

(** A [WorkspaceConfiguration] object: the settings of one section. *)
Definition config_get (cfg : gmap string JsValue) (key : string) : JsValue :=
  default VUndefined (cfg !! key).

(** [vscode.ConfigurationChangeEvent]. *)
Record ConfigurationChangeEvent : Type :=
  { affectsConfiguration : string → bool }.

(** Objects built by a constructor are represented by the constructor's
    arguments. *)
Inductive VSCodeURLReader : Type := new_VSCodeURLReader.
Inductive ConnectionManager : Type := connectionManager.
Inductive CommandCallback : Type := editConnectionsCommand.

Record ConnectionsProvider : Type :=
  { cp_context : ExtensionContext; cp_connectionManager : ConnectionManager }.

Record WorkerConnection : Type := { wc_context : ExtensionContext }.

Record FileSystemWatcher : Type := { globPattern : string }.

Inductive TransportKind : Type := stdio | ipc | pipe | socket.

Record ForkOptions : Type := { execArgv : list string }.

Record NodeModule : Type :=
  { module : Path; transport : TransportKind; options : option ForkOptions }.

Record ServerOptions : Type := { run : NodeModule; debug : NodeModule }.

Record DocumentFilter : Type := { language : string }.

Record SynchronizeOptions : Type :=
  { configurationSection : string; fileEvents : FileSystemWatcher }.

Record LanguageClientOptions : Type :=
  { documentSelector : list DocumentFilter; synchronize : SynchronizeOptions }.

Record LanguageClient : Type :=
  { lc_id : string;
    lc_name : string;
    lc_serverOptions : ServerOptions;
    lc_clientOptions : LanguageClientOptions }.

(** Modelled from the spec: the interfaces [FetchFileEvent],
    [FetchBinaryFileEvent] and [FetchCellDataEvent] are declared in
    [../types], outside the source at hand; the handlers read one field of
    them, [uri]. *)
Record FetchEvent : Type := { uri : string }.
Definition FetchFileEvent : Type := FetchEvent.
Definition FetchBinaryFileEvent : Type := FetchEvent.
Definition FetchCellDataEvent : Type := FetchEvent.

(** The messages sent to the worker: [{type: 'config', config}] and
    [{type: 'exit'}]. *)
Inductive WorkerMessage : Type :=
| Msg_config (config : gmap string JsValue)
| Msg_exit.

(** The closures the file hands to the host, named by the place they are
    written at together with what they capture. *)
Inductive ConfigurationListener : Type :=
| activate_listener (connectionsTree : ConnectionsProvider).

Inductive RequestHandler : Type :=
| fetchFile_handler
| fetchBinaryFile_handler
| fetchCellData_handler.

Inductive Disposable : Type :=
| TreeDataProviderRegistration (viewId : string) (provider : ConnectionsProvider)
| CommandRegistration (command : string) (callback : CommandCallback)
| ConfigurationListenerRegistration (listener : ConfigurationListener)
| ClientStartRegistration (client : LanguageClient).

(** ** Promises *)

(** Promises are named by the order in which they are created. *)
Abbreviation Promise := nat.

Inductive Outcome : Type :=
| Fulfilled (value : JsValue)
| Rejected (reason : JsValue).

(** ** Calls across the module boundary

    One constructor per call the file makes into the host ([vscode],
    [process], [console], [os]), into the language-client library, or into
    a sibling module, indexed by the type of what the call returns.  The
    two accesses to the module variable [client] are operations too. *)
Inductive Op : Type → Type :=
(* ../utils *)
| New_VSCodeURLReader : Op VSCodeURLReader
| FetchFile (uri : string) : Op Promise
| FetchBinaryFile (uri : string) : Op Promise
| FetchCellData (uri : string) : Op Promise
(* ../subscriptions, ../tree_views/connections_view, ../state *)
| SetupSubscriptions (context : ExtensionContext) (urlReader : VSCodeURLReader)
    (cm : ConnectionManager) : Op unit
| New_ConnectionsProvider (context : ExtensionContext) (cm : ConnectionManager) :
    Op ConnectionsProvider
| Refresh (tree : ConnectionsProvider) : Op unit
| SetHomeUri (home : Uri) : Op unit
(* ./connection_manager *)
| OnConfigurationUpdated (cm : ConnectionManager) : Op Promise
(* ../../worker/worker, ../../worker/node/worker_connection *)
| New_WorkerConnection (context : ExtensionContext) : Op WorkerConnection
| SetWorker (w : WorkerConnection) : Op unit
| GetWorker : Op (option WorkerConnection)
| Worker_send (w : WorkerConnection) (message : WorkerMessage) : Op unit
(* os, process, console *)
| Os_homedir : Op string
| Env_set (key value : string) : Op unit
| Console_info (message arg : string) : Op unit
(* vscode *)
| RegisterTreeDataProvider (viewId : string) (provider : ConnectionsProvider) :
    Op Disposable
| RegisterCommand (command : string) (callback : CommandCallback) : Op Disposable
| Subscriptions_push (context : ExtensionContext) (d : Disposable) : Op unit
| GetConfiguration (section : string) : Op (gmap string JsValue)
| OnDidChangeConfiguration (listener : ConfigurationListener) : Op Disposable
| CreateFileSystemWatcher (glob : string) : Op FileSystemWatcher
(* vscode-languageclient/node *)
| New_LanguageClient (id name : string) (serverOptions : ServerOptions)
    (clientOptions : LanguageClientOptions) : Op LanguageClient
| Client_start (c : LanguageClient) : Op Disposable
| Client_onReady (c : LanguageClient) : Op Promise
| Client_onRequest (c : LanguageClient) (method : string)
    (handler : RequestHandler) : Op unit
| Client_stop (c : LanguageClient) : Op Promise
(* the module variable [client] *)
| Client_assign (c : LanguageClient) : Op unit
| Client_read : Op (option LanguageClient).

(** ** Programs

    [Do] performs a call and continues with its result; [Await] is the
    [await] of the source; [Async] is a call of one of the file's own
    [async] functions from synchronous code: the caller gets the promise
    and goes on. *)
Inductive Prog (R : Type) : Type :=
| Ret (r : R)
| Throw (e : JsValue)
| Do {X : Type} (op : Op X) (k : X → Prog R)
| Await (p : Promise) (k : JsValue → Prog R)
| Async (body : Prog JsValue) (k : Promise → Prog R).

Arguments Ret {R} r.
Arguments Throw {R} e.
Arguments Do {R X} op k.
Arguments Await {R} p k.
Arguments Async {R} body k.

Fixpoint bind {A B : Type} (m : Prog A) (f : A → Prog B) : Prog B :=
  match m with
  | Ret a => f a
  | Throw e => Throw e
  | Do op k => Do op (λ x, bind (k x) f)
  | Await p k => Await p (λ v, bind (k v) f)
  | Async body k => Async body (λ q, bind (k q) f)
  end.

Definition call {X : Type} (op : Op X) : Prog X := Do op Ret.
Definition await (p : Promise) : Prog JsValue := Await p Ret.

#[global] Instance Prog_ret : MRet Prog := @Ret.
#[global] Instance Prog_bind : MBind Prog := λ A B f m, bind m f.

(** ** The functions of [extension_node.ts] *)

(** [cloudshellEnv]; the [match] is the narrowing of [cloudShellProject]
    to [string] that the [typeof] test gives the assignments. *)
Definition cloudshellEnv : Prog unit :=
  cfg ← call (GetConfiguration "cloudcode");
  let cloudShellProject := config_get cfg "cloudshell.project" in
  if truthy cloudShellProject && String.eqb (typeof cloudShellProject) "string"
  then
    match cloudShellProject with
    | VString project =>
        call (Env_set "DEVSHELL_PROJECT_ID" project);;
        call (Env_set "GOOGLE_CLOUD_PROJECT" project);;
        call (Env_set "GOOGLE_CLOUD_QUOTA_PROJECT" project)
    | _ => mret ()
    end
  else mret ().

(** [sendWorkerConfig].  In [getWorker().send(arg)] the callee is
    evaluated before the argument, so [send] of [undefined] throws before
    the configuration is read. *)
Definition sendWorkerConfig : Prog unit :=
  worker ← call GetWorker;
  match worker with
  | None =>
      Throw (TypeError "Cannot read properties of undefined (reading 'send')")
  | Some worker =>
      config ← call (GetConfiguration "malloy");
      call (Worker_send worker (Msg_config config))
  end.

Definition setupWorker (context : ExtensionContext) : Prog unit :=
  worker ← call (New_WorkerConnection context);
  call (SetWorker worker);;
  sendWorkerConfig.

(** The three request handlers registered by [setupLanguageServer]. *)
Definition handler_body (h : RequestHandler) (event : FetchEvent) : Prog JsValue :=
  match h with
  | fetchFile_handler =>
      call (Console_info "fetchFile returning" (uri event));;
      p ← call (FetchFile (uri event));
      v ← await p;
      mret v
  | fetchBinaryFile_handler =>
      call (Console_info "fetchBinaryFile returning" (uri event));;
      p ← call (FetchBinaryFile (uri event));
      v ← await p;
      mret v
  | fetchCellData_handler =>
      call (Console_info "fetchCellData returning" (uri event));;
      p ← call (FetchCellData (uri event));
      v ← await p;
      mret v
  end.

(** [setupLanguageServer].  After the assignment [client = new ...] the
    source reads the module variable back at every use; nothing else
    assigns it, so the reads are written as the local [client]. *)
Definition setupLanguageServer (context : ExtensionContext) : Prog JsValue :=
  let serverModule := asAbsolutePath context "dist/server_node.js" in
  let debugOptions :=
    {| execArgv := ["--nolazy"; "--inspect=6009"; "--preserve-symlinks";
                    "--enable-source-maps"] |} in
  let serverOptions :=
    {| run := {| module := serverModule; transport := ipc; options := None |};
       debug := {| module := serverModule; transport := ipc;
                   options := Some debugOptions |} |} in
  watcher ← call (CreateFileSystemWatcher "**/.clientrc");
  let clientOptions :=
    {| documentSelector := [ {| language := "malloy" |} ];
       synchronize := {| configurationSection := "malloy";
                         fileEvents := watcher |} |} in
  client ← call (New_LanguageClient "malloy" "Malloy Language Server"
                   serverOptions clientOptions);
  call (Client_assign client);;
  call (Client_start client);;
  ready ← call (Client_onReady client);
  await ready;;
  call (Client_onRequest client "malloy/fetchFile" fetchFile_handler);;
  call (Client_onRequest client "malloy/fetchBinaryFile" fetchBinaryFile_handler);;
  call (Client_onRequest client "malloy/fetchCellData" fetchCellData_handler);;
  mret VUndefined.

(** The listener [activate] passes to [onDidChangeConfiguration]. *)
Definition listener_body (l : ConfigurationListener)
    (e : ConfigurationChangeEvent) : Prog JsValue :=
  match l with
  | activate_listener connectionsTree =>
      (if affectsConfiguration e "malloy" then
         updated ← call (OnConfigurationUpdated connectionManager);
         await updated;;
         call (Refresh connectionsTree);;
         sendWorkerConfig
       else mret ());;
      (if affectsConfiguration e "cloudshell" then cloudshellEnv else mret ());;
      mret VUndefined
  end.

(** [activate].  [setupLanguageServer] is [async] and is called without
    [await]. *)
Definition activate (context : ExtensionContext) : Prog unit :=
  urlReader ← call New_VSCodeURLReader;
  call (SetupSubscriptions context urlReader connectionManager);;
  connectionsTree ← call (New_ConnectionsProvider context connectionManager);
  home ← call Os_homedir;
  call (SetHomeUri (Uri_file home));;
  d ← call (RegisterTreeDataProvider "malloyConnections" connectionsTree);
  call (Subscriptions_push context d);;
  d ← call (RegisterCommand "malloy.editConnections" editConnectionsCommand);
  call (Subscriptions_push context d);;
  cloudshellEnv;;
  d ← call (OnDidChangeConfiguration (activate_listener connectionsTree));
  call (Subscriptions_push context d);;
  Async (setupLanguageServer context) Ret;;
  setupWorker context.

Definition deactivate : Prog JsValue :=
  client ← call Client_read;
  match client with
  | Some client => stopped ← call (Client_stop client); await stopped;; mret ()
  | None => mret ()
  end;;
  worker ← call GetWorker;
  match worker with
  | Some worker => call (Worker_send worker Msg_exit)
  | None => mret ()
  end;;
  mret VUndefined.

(** ** The world the code runs in *)

(** An [async] function parked at an [await]: the promise it will settle
    when it finishes, and the rest of its body. *)
Record Task : Type :=
  { task_promise : Promise; task_rest : JsValue → Prog JsValue }.

Record World : Type :=
  { (* module variables *)
    client : option LanguageClient;
    worker : option WorkerConnection;
    (* host state *)
    process_env : gmap string string;
    settings : string → gmap string JsValue;
    homedir : string;
    configuration_listeners : list ConfigurationListener;
    request_handlers : gmap string RequestHandler;
    (* event loop *)
    waiting : list (Promise * Task);
    next_promise : Promise }.

Definition set_worker (x : option WorkerConnection) (w : World) : World :=
  {| client := client w; worker := x; process_env := process_env w;
     settings := settings w; homedir := homedir w;
     configuration_listeners := configuration_listeners w;
     request_handlers := request_handlers w; waiting := waiting w;
     next_promise := next_promise w |}.

Definition set_client (x : option LanguageClient) (w : World) : World :=
  {| client := x; worker := worker w; process_env := process_env w;
     settings := settings w; homedir := homedir w;
     configuration_listeners := configuration_listeners w;
     request_handlers := request_handlers w; waiting := waiting w;
     next_promise := next_promise w |}.

Definition set_process_env (x : gmap string string) (w : World) : World :=
  {| client := client w; worker := worker w; process_env := x;
     settings := settings w; homedir := homedir w;
     configuration_listeners := configuration_listeners w;
     request_handlers := request_handlers w; waiting := waiting w;
     next_promise := next_promise w |}.

Definition set_settings (x : string → gmap string JsValue) (w : World) : World :=
  {| client := client w; worker := worker w; process_env := process_env w;
     settings := x; homedir := homedir w;
     configuration_listeners := configuration_listeners w;
     request_handlers := request_handlers w; waiting := waiting w;
     next_promise := next_promise w |}.

Definition set_configuration_listeners (x : list ConfigurationListener)
    (w : World) : World :=
  {| client := client w; worker := worker w; process_env := process_env w;
     settings := settings w; homedir := homedir w;
     configuration_listeners := x;
     request_handlers := request_handlers w; waiting := waiting w;
     next_promise := next_promise w |}.

Definition set_request_handlers (x : gmap string RequestHandler)
    (w : World) : World :=
  {| client := client w; worker := worker w; process_env := process_env w;
     settings := settings w; homedir := homedir w;
     configuration_listeners := configuration_listeners w;
     request_handlers := x; waiting := waiting w;
     next_promise := next_promise w |}.

Definition set_waiting (x : list (Promise * Task)) (w : World) : World :=
  {| client := client w; worker := worker w; process_env := process_env w;
     settings := settings w; homedir := homedir w;
     configuration_listeners := configuration_listeners w;
     request_handlers := request_handlers w; waiting := x;
     next_promise := next_promise w |}.

Definition set_next_promise (x : Promise) (w : World) : World :=
  {| client := client w; worker := worker w; process_env := process_env w;
     settings := settings w; homedir := homedir w;
     configuration_listeners := configuration_listeners w;
     request_handlers := request_handlers w; waiting := waiting w;
     next_promise := x |}.

(** Modelled from the spec: [getWorker] and [setWorker] are defined in
    [../../worker/worker], outside the source at hand.  They are taken to be
    what their names and their use here say: the reader and the writer of
    one module variable, [undefined] until the first [setWorker].  That
    variable is the field [worker]. *)
Definition getWorker (w : World) : option WorkerConnection := worker w.

(** Modelled from the spec: [setWorker] of [../../worker/worker], the writer
    of the variable [getWorker] reads. *)
Definition setWorker (x : WorkerConnection) (w : World) : World :=
  set_worker (Some x) w.

(** A call that returns a promise gets the next unused one. *)
Definition fresh_promise (w : World) : Promise * World :=
  (next_promise w, set_next_promise (S (next_promise w)) w).

(** A value stored in [process.env] goes to the environment of the
    process as a C string: what is kept, and read back, is the value up
    to its first NUL character. *)
Fixpoint c_string (s : string) : string :=
  match s with
  | EmptyString => EmptyString
  | String a s => if Ascii.eqb a Ascii.zero then EmptyString else String a (c_string s)
  end.

(** ** What a call does

    The [World] holds what the file itself reads back: its module
    variable, the worker registry, [process.env], the settings, the
    listeners and handlers it registered.  A call whose effect lies
    elsewhere (the tree view, the worker process, the console) is seen in
    the trace only.  That goes for [context.subscriptions] too: the array
    belongs to the host, and [setupSubscriptions] and the constructors
    that are handed [context], none of them in this file, may push to it
    as well; what the array holds is not part of the [World], and the
    pushes this file makes are read off the trace. *)
Definition perform {X : Type} (op : Op X) (w : World) : X * World :=
  match op in Op X return X * World with
  | New_VSCodeURLReader => (new_VSCodeURLReader, w)
  | FetchFile _ => fresh_promise w
  | FetchBinaryFile _ => fresh_promise w
  | FetchCellData _ => fresh_promise w
  | SetupSubscriptions _ _ _ => ((), w)
  | New_ConnectionsProvider context cm =>
      ({| cp_context := context; cp_connectionManager := cm |}, w)
  | Refresh _ => ((), w)
  | SetHomeUri _ => ((), w)
  | OnConfigurationUpdated _ => fresh_promise w
  | New_WorkerConnection context => ({| wc_context := context |}, w)
  | SetWorker x => ((), setWorker x w)
  | GetWorker => (getWorker w, w)
  | Worker_send _ _ => ((), w)
  | Os_homedir => (homedir w, w)
  | Env_set key value =>
      ((), set_process_env (<[key := c_string value]> (process_env w)) w)
  | Console_info _ _ => ((), w)
  | RegisterTreeDataProvider viewId provider =>
      (TreeDataProviderRegistration viewId provider, w)
  | RegisterCommand command callback => (CommandRegistration command callback, w)
  | Subscriptions_push _ _ => ((), w)
  | GetConfiguration section => (settings w section, w)
  | OnDidChangeConfiguration listener =>
      (ConfigurationListenerRegistration listener,
       set_configuration_listeners (configuration_listeners w ++ [listener]) w)
  | CreateFileSystemWatcher glob => ({| globPattern := glob |}, w)
  | New_LanguageClient id name serverOptions clientOptions =>
      ({| lc_id := id; lc_name := name; lc_serverOptions := serverOptions;
          lc_clientOptions := clientOptions |}, w)
  | Client_start c => (ClientStartRegistration c, w)
  | Client_onReady _ => fresh_promise w
  | Client_onRequest _ method handler =>
      ((), set_request_handlers (<[method := handler]> (request_handlers w)) w)
  | Client_stop _ => fresh_promise w
  | Client_assign c => ((), set_client (Some c) w)
  | Client_read => (client w, w)
  end.

(** ** Running a program *)

(** What is seen from outside: every call with its result, and every
    promise of an [async] function of this file being settled. *)
Inductive Event : Type :=
| Call {X : Type} (op : Op X) (result : X)
| Settled (p : Promise) (o : Outcome).

Inductive Status (R : Type) : Type :=
| Returned (r : R)
| Thrown (e : JsValue)
| Suspended (p : Promise) (k : JsValue → Prog R).

Arguments Returned {R} r.
Arguments Thrown {R} e.
Arguments Suspended {R} p k.

(** The end of a run of an [async] function with promise [q]: [return]
    fulfils [q], an uncaught exception rejects it, and at an [await] the
    rest of the body is parked until the awaited promise settles.  None of
    the file's code awaits a promise of one of its own [async] functions
    (they are called by the host, and by [activate], which drops the
    promise), so settling [q] wakes nothing here. *)
Definition conclude (q : Promise) (s : Status JsValue) (w : World) :
    World * list Event :=
  match s with
  | Returned v => (w, [Settled q (Fulfilled v)])
  | Thrown e => (w, [Settled q (Rejected e)])
  | Suspended p k =>
      (set_waiting (waiting w ++ [(p, {| task_promise := q; task_rest := k |})]) w,
       [])
  end.

(** Run to completion: a program runs until it returns, throws or reaches
    an [await].  An [Async] call runs the callee's body up to its first
    [await] and then goes on with the caller. *)
Fixpoint exec {R : Type} (prog : Prog R) (w : World) :
    Status R * World * list Event :=
  match prog with
  | Ret r => (Returned r, w, [])
  | Throw e => (Thrown e, w, [])
  | Do op k =>
      let '(x, w1) := perform op w in
      let '(s, w2, t) := exec (k x) w1 in
      (s, w2, Call op x :: t)
  | Await p k => (Suspended p k, w, [])
  | Async body k =>
      let '(q, w0) := fresh_promise w in
      let '(s1, w1, t1) := exec body w0 in
      let '(w2, t2) := conclude q s1 w1 in
      let '(s3, w3, t3) := exec (k q) w2 in
      (s3, w3, t1 ++ t2 ++ t3)
  end.

(** A call of an [async] function by the host. *)
Definition call_async (body : Prog JsValue) (w : World) : World * list Event :=
  let '(q, w0) := fresh_promise w in
  let '(s, w1, t1) := exec body w0 in
  let '(w2, t2) := conclude q s w1 in
  (w2, t1 ++ t2).

(** A parked function goes on when the promise it awaits settles: with
    the value if it is fulfilled; if it is rejected the [await] throws, and
    as the file has no [try], the function ends rejected. *)
Definition resume (o : Outcome) (t : Task) (w : World) : World * list Event :=
  match o with
  | Fulfilled v =>
      let '(s, w1, t1) := exec (task_rest t v) w in
      let '(w2, t2) := conclude (task_promise t) s w1 in
      (w2, t1 ++ t2)
  | Rejected e => conclude (task_promise t) (Thrown e) w
  end.

Fixpoint resume_all (o : Outcome) (ts : list Task) (w : World) :
    World * list Event :=
  match ts with
  | [] => (w, [])
  | t :: ts =>
      let '(w1, t1) := resume o t w in
      let '(w2, t2) := resume_all o ts w1 in
      (w2, t1 ++ t2)
  end.

(** ** The event loop

    After [activate] the host calls back into the file, one turn at a
    time; a turn runs to completion before the next one starts. *)
Inductive Turn : Type :=
| ConfigurationChanged (new_settings : string → gmap string JsValue)
    (e : ConfigurationChangeEvent)
| RequestReceived (method : string) (params : FetchEvent)
| PromiseSettled (p : Promise) (o : Outcome)
| Deactivate.

Fixpoint notify (ls : list ConfigurationListener) (e : ConfigurationChangeEvent)
    (w : World) : World * list Event :=
  match ls with
  | [] => (w, [])
  | l :: ls =>
      let '(w1, t1) := call_async (listener_body l e) w in
      let '(w2, t2) := notify ls e w1 in
      (w2, t1 ++ t2)
  end.

Definition awaits (p : Promise) (entry : Promise * Task) : bool :=
  Nat.eqb entry.1 p.

Definition turn (t : Turn) (w : World) : World * list Event :=
  match t with
  | ConfigurationChanged new_settings e =>
      let w := set_settings new_settings w in
      notify (configuration_listeners w) e w
  | RequestReceived method params =>
      match request_handlers w !! method with
      | Some h => call_async (handler_body h params) w
      | None => (w, [])
      end
  | PromiseSettled p o =>
      let woken := List.filter (awaits p) (waiting w) in
      let others := List.filter (λ entry, negb (awaits p entry)) (waiting w) in
      resume_all o (snd <$> woken) (set_waiting others w)
  | Deactivate => call_async deactivate w
  end.

Fixpoint turns (ts : list Turn) (w : World) : World * list Event :=
  match ts with
  | [] => (w, [])
  | t :: ts =>
      let '(w1, t1) := turn t w in
      let '(w2, t2) := turns ts w1 in
      (w2, t1 ++ t2)
  end.

(** The world at the start of the extension host: nothing of this file
    has run. *)
Definition startup (env : gmap string string)
    (config : string → gmap string JsValue) (home : string) : World :=
  {| client := None; worker := None; process_env := env; settings := config;
     homedir := home; configuration_listeners := [];
     request_handlers := ∅; waiting := []; next_promise := 0 |}.

(** ** Reading a trace *)

(** The objects [activate] builds from its [context]. *)
Definition connectionsTree_of (context : ExtensionContext) : ConnectionsProvider :=
  {| cp_context := context; cp_connectionManager := connectionManager |}.

Definition worker_of (context : ExtensionContext) : WorkerConnection :=
  {| wc_context := context |}.

Definition client_of (context : ExtensionContext) : LanguageClient :=
  let serverModule := asAbsolutePath context "dist/server_node.js" in
  {| lc_id := "malloy";
     lc_name := "Malloy Language Server";
     lc_serverOptions :=
       {| run := {| module := serverModule; transport := ipc; options := None |};
          debug :=
            {| module := serverModule; transport := ipc;
               options :=
                 Some {| execArgv := ["--nolazy"; "--inspect=6009";
                                      "--preserve-symlinks";
                                      "--enable-source-maps"] |} |} |};
     lc_clientOptions :=
       {| documentSelector := [ {| language := "malloy" |} ];
          synchronize :=
            {| configurationSection := "malloy";
               fileEvents := {| globPattern := "**/.clientrc" |} |} |} |}.

(** The setting [cloudshellEnv] reads. *)
Definition cloudShellProject (w : World) : JsValue :=
  config_get (settings w "cloudcode") "cloudshell.project".

(** The runs of [cloudshellEnv] in a trace: each run reads the section
    [cloudcode] once, and nothing else in the file reads that section. *)
Definition reads_cloudcode (e : Event) : bool :=
  match e with
  | Call op _ =>
      match op with
      | GetConfiguration section => String.eqb section "cloudcode"
      | _ => false
      end
  | Settled _ _ => false
  end.

Definition cloudshellEnv_runs (t : list Event) : nat :=
  length (List.filter reads_cloudcode t).

(** The messages a trace sends to a worker, in order. *)
Definition sent_message (e : Event) : option (WorkerConnection * WorkerMessage) :=
  match e with
  | Call op _ =>
      match op with
      | Worker_send w m => Some (w, m)
      | _ => None
      end
  | Settled _ _ => None
  end.

Definition worker_messages (t : list Event) :
    list (WorkerConnection * WorkerMessage) :=
  omap sent_message t.







(** A read of the worker registry that found no worker. *)
Definition worker_absent (e : Event) : bool :=
  match e with
  | Call op r =>
      match op in Op X return X → bool with
      | GetWorker => λ r, match r with None => true | Some _ => false end
      | _ => λ _, false
      end r
  | Settled _ _ => false
  end.

(** The calls that belong to [setupLanguageServer] and to [setupWorker]. *)
Definition of_setupLanguageServer (e : Event) : bool :=
  match e with
  | Call op _ =>
      match op with
      | CreateFileSystemWatcher _ | New_LanguageClient _ _ _ _
      | Client_assign _ | Client_start _ | Client_onReady _
      | Client_onRequest _ _ _ => true
      | _ => false
      end
  | Settled _ _ => false
  end.

Definition of_setupWorker (e : Event) : bool :=
  match e with
  | Call op _ =>
      match op with
      | New_WorkerConnection _ | SetWorker _ | GetWorker
      | GetConfiguration "malloy" | Worker_send _ _ => true
      | _ => false
      end
  | Settled _ _ => false
  end.

(** The claim that [setupLanguageServer] is over before [setupWorker]
    starts, as a test on a trace: once a call of [setupWorker] has been
    made, no call of [setupLanguageServer] follows. *)
Fixpoint setupLanguageServer_completes_first (t : list Event) : bool :=
  match t with
  | [] => true
  | e :: t =>
      (if of_setupWorker e then forallb (λ e', negb (of_setupLanguageServer e')) t
       else true)
      && setupLanguageServer_completes_first t
  end.

(** The request methods with the function of [../utils] each is answered
    by. *)
Definition fetch_requests : list (string * (string → Op Promise)) :=
  [("malloy/fetchFile", FetchFile);
   ("malloy/fetchBinaryFile", FetchBinaryFile);
   ("malloy/fetchCellData", FetchCellData)].

(** An execution: [activate] at the start of the host, then the turns the
    host takes.  It gives the world at the end and everything that was
    seen. *)
Definition execution (env : gmap string string)
    (config : string → gmap string JsValue) (home : string)
    (context : ExtensionContext) (ts : list Turn) : World * list Event :=
  let '(_, w1, t1) := exec (activate context) (startup env config home) in
  let '(w2, t2) := turns ts w1 in
  (w2, t1 ++ t2).

(** ** What [activate] leaves behind *)

(** The rest of [setupLanguageServer] after [await client.onReady()]. *)
Definition setupLanguageServer_rest (context : ExtensionContext) :
    JsValue → Prog JsValue :=
  λ _,
    call (Client_onRequest (client_of context) "malloy/fetchFile"
            fetchFile_handler);;
    call (Client_onRequest (client_of context) "malloy/fetchBinaryFile"
            fetchBinaryFile_handler);;
    call (Client_onRequest (client_of context) "malloy/fetchCellData"
            fetchCellData_handler);;
    mret VUndefined.

(** The calls of [activate context] started in [w], in order, by the step
    that makes them. *)
Definition subscription_setup_calls (context : ExtensionContext) : list Event :=
  [Call New_VSCodeURLReader new_VSCodeURLReader;
   Call (SetupSubscriptions context new_VSCodeURLReader connectionManager) ()].

Definition tree_view_calls (context : ExtensionContext) : list Event :=
  [Call (New_ConnectionsProvider context connectionManager)
     (connectionsTree_of context)].

Definition home_uri_calls (w : World) : list Event :=
  [Call Os_homedir (homedir w);
   Call (SetHomeUri (Uri_file (homedir w))) ()].

Definition registration_calls (context : ExtensionContext) : list Event :=
  let tree := TreeDataProviderRegistration "malloyConnections"
                (connectionsTree_of context) in
  let command := CommandRegistration "malloy.editConnections"
                   editConnectionsCommand in
  [Call (RegisterTreeDataProvider "malloyConnections" (connectionsTree_of context))
     tree;
   Call (Subscriptions_push context tree) ();
   Call (RegisterCommand "malloy.editConnections" editConnectionsCommand) command;
   Call (Subscriptions_push context command) ()].

Definition cloudshellEnv_calls (w : World) : list Event :=
  (exec cloudshellEnv w).2.

Definition listener_calls (context : ExtensionContext) : list Event :=
  let listener := activate_listener (connectionsTree_of context) in
  [Call (OnDidChangeConfiguration listener)
     (ConfigurationListenerRegistration listener);
   Call (Subscriptions_push context (ConfigurationListenerRegistration listener)) ()].

(** [setupLanguageServer] up to its [await]; [ready] is the promise
    [client.onReady()] returns. *)
Definition language_server_calls (context : ExtensionContext) (ready : Promise) :
    list Event :=
  let c := client_of context in
  [Call (CreateFileSystemWatcher "**/.clientrc") {| globPattern := "**/.clientrc" |};
   Call (New_LanguageClient "malloy" "Malloy Language Server"
           (lc_serverOptions c) (lc_clientOptions c)) c;
   Call (Client_assign c) ();
   Call (Client_start c) (ClientStartRegistration c);
   Call (Client_onReady c) ready].

(** [setupLanguageServer] after its [await]. *)
Definition request_handler_calls (context : ExtensionContext) : list Event :=
  let c := client_of context in
  [Call (Client_onRequest c "malloy/fetchFile" fetchFile_handler) ();
   Call (Client_onRequest c "malloy/fetchBinaryFile" fetchBinaryFile_handler) ();
   Call (Client_onRequest c "malloy/fetchCellData" fetchCellData_handler) ()].

Definition worker_calls (context : ExtensionContext) (w : World) : list Event :=
  let worker := worker_of context in
  [Call (New_WorkerConnection context) worker;
   Call (SetWorker worker) ();
   Call GetWorker (Some worker);
   Call (GetConfiguration "malloy") (settings w "malloy");
   Call (Worker_send worker (Msg_config (settings w "malloy"))) ()].

Definition activate_calls (context : ExtensionContext) (w : World) : list Event :=
  subscription_setup_calls context ++ tree_view_calls context
  ++ home_uri_calls w ++ registration_calls context ++ cloudshellEnv_calls w
  ++ listener_calls context
  ++ language_server_calls context (S (next_promise w))
  ++ worker_calls context w.

(** The function of [../utils] each handler calls. *)
Definition handler_fetches (h : RequestHandler) : string → Op Promise :=
  match h with
  | fetchFile_handler => FetchFile
  | fetchBinaryFile_handler => FetchBinaryFile
  | fetchCellData_handler => FetchCellData
  end.

(** No read of the worker registry in the trace found it empty. *)
Definition worker_reads_ok (t : list Event) : Prop :=
  Forall (λ e, worker_absent e = false) t.

(** A step that starts with a worker registered, ends with one
    registered and never found the registry empty. *)
Definition keeps_worker (r : World * list Event) : Prop :=
  is_Some (worker r.1) ∧ worker_reads_ok r.2.

(** What [sendWorkerConfig] is seen to do when the worker [worker] is
    registered and the settings are those of [w]. *)
Definition config_sent (worker : WorkerConnection) (w : World) : list Event :=
  [Call GetWorker (Some worker);
   Call (GetConfiguration "malloy") (settings w "malloy");
   Call (Worker_send worker (Msg_config (settings w "malloy"))) ()].

(** ** Executions: what stays true after [activate] *)

(** The registrations [setupLanguageServer] makes after its [await]. *)
Definition registered_handlers : list (string * RequestHandler) :=
  [("malloy/fetchFile", fetchFile_handler);
   ("malloy/fetchBinaryFile", fetchBinaryFile_handler);
   ("malloy/fetchCellData", fetchCellData_handler)].

Definition handlers_registered (w : World) : Prop :=
  Forall (λ '(method, h), request_handlers w !! method = Some h)
    registered_handlers.

(** The rest of the configuration listener after
    [await connectionManager.onConfigurationUpdated()]. *)
Definition listener_rest (connectionsTree : ConnectionsProvider)
    (e : ConfigurationChangeEvent) : JsValue → Prog JsValue :=
  λ _,
    (call (Refresh connectionsTree);; sendWorkerConfig);;
    (if affectsConfiguration e "cloudshell" then cloudshellEnv else mret ());;
    mret VUndefined.

(** What a run of the file's code leaves alone: the listeners, the worker,
    the parked functions, and the request handlers once registered. *)
Definition undisturbed (w w' : World) : Prop :=
  configuration_listeners w' = configuration_listeners w ∧
  worker w' = worker w ∧
  waiting w' = waiting w ∧
  (handlers_registered w → handlers_registered w').

(** The rest of a function after its [await] runs to the end: it does not
    park again and creates no promise. *)
Definition runs_to_the_end (k : JsValue → Prog JsValue) : Prop :=
  ∀ v w,
    let '(s, w', _) := exec (k v) w in
    undisturbed w w' ∧ next_promise w' = next_promise w ∧
    match s with Suspended _ _ => False | _ => True end.

(** A function the host calls has at most one [await], on a promise it
    got in the same run. *)
Definition awaits_once (body : Prog JsValue) : Prop :=
  ∀ w,
    let '(s, w', _) := exec body w in
    undisturbed w w' ∧ (next_promise w ≤ next_promise w')%nat ∧
    match s with
    | Suspended p k =>
        (next_promise w ≤ p)%nat ∧ (p < next_promise w')%nat ∧ runs_to_the_end k
    | _ => True
    end.

(** Every parked function awaits a promise that exists, and its rest runs
    to the end. *)
Definition well_parked (w : World) : Prop :=
  Forall (λ entry, (entry.1 < next_promise w)%nat ∧
                   runs_to_the_end (task_rest entry.2)) (waiting w).

(** The state [activate context] establishes and every turn keeps. *)
Definition activated_by (context : ExtensionContext) (w : World) : Prop :=
  configuration_listeners w = [activate_listener (connectionsTree_of context)] ∧
  worker w = Some (worker_of context) ∧
  well_parked w.

Definition turn_ok (context : ExtensionContext) (w w' : World) : Prop :=
  activated_by context w' ∧
  (next_promise w ≤ next_promise w')%nat ∧
  (handlers_registered w → handlers_registered w').

(** The turn settles the promise [p]. *)
Definition settles (p : Promise) (t : Turn) : bool :=
  match t with
  | PromiseSettled p' _ => Nat.eqb p' p
  | _ => false
  end.

(** ** What the parked functions leave alone *)

(** The rest of [deactivate] after [await client.stop()]. *)
Definition deactivate_rest : JsValue → Prog JsValue :=
  λ _,
    worker ← call GetWorker;
    match worker with
    | Some worker => call (Worker_send worker Msg_exit)
    | None => mret ()
    end;;
    mret VUndefined.

(** The rest of a function after its [await] leaves the part [f] of the
    world as it is. *)
Definition keeps {A : Type} (f : World → A) (k : JsValue → Prog JsValue) : Prop :=
  ∀ v w, f (exec (k v) w).1.2 = f w.

(** A function the host calls leaves [f] as it is, up to its [await] and
    after it. *)
Definition body_keeps {A : Type} (f : World → A) (body : Prog JsValue) : Prop :=
  ∀ w,
    let '(s, w', _) := exec body w in
    f w' = f w ∧
    match s with
    | Suspended _ k => keeps f k
    | _ => True
    end.

(** Every parked function leaves [f] as it is, those parked on a promise
    in [exempt] apart. *)
Definition parked_keep {A : Type} (f : World → A) (exempt : Promise → bool)
    (w : World) : Prop :=
  Forall (λ entry, exempt entry.1 = true ∨ keeps f (task_rest entry.2))
    (waiting w).

(** The turn fulfils a promise in [exempt]. *)
Definition fulfils (exempt : Promise → bool) (t : Turn) : bool :=
  match t with
  | PromiseSettled p (Fulfilled _) => exempt p
  | _ => false
  end.

(** [f] is a part of the world that the event loop itself does not
    touch: not the parked functions, the promise counter or the
    settings. *)
Definition loop_independent {A : Type} (f : World → A) : Prop :=
  (∀ x w, f (set_waiting x w) = f w) ∧
  (∀ x w, f (set_next_promise x w) = f w) ∧
  (∀ x w, f (set_settings x w) = f w).

(** The promise of [client.onReady()] in an execution. *)
Definition is_ready_promise (p : Promise) : bool := Nat.eqb p 1.
Definition no_promise (p : Promise) : bool := false.

(** The turn is a configuration change that affects [cloudshell]. *)
Definition affects_cloudshell (t : Turn) : bool :=
  match t with
  | ConfigurationChanged _ e => affectsConfiguration e "cloudshell"
  | _ => false
  end.

Definition is_deactivate (t : Turn) : bool :=
  match t with
  | Deactivate => true
  | _ => false
  end.

(** ** Messages to the worker *)

(** Every message the trace sends to a worker is [ok]. *)
Definition sends (ok : WorkerConnection * WorkerMessage → Prop)
    (t : list Event) : Prop :=
  Forall ok (worker_messages t).

Definition rest_sends (ok : WorkerConnection * WorkerMessage → Prop)
    (worker : WorkerConnection) (k : JsValue → Prog JsValue) : Prop :=
  ∀ v w, getWorker w = Some worker → sends ok (exec (k v) w).2.

Definition body_sends (ok : WorkerConnection * WorkerMessage → Prop)
    (worker : WorkerConnection) (body : Prog JsValue) : Prop :=
  ∀ w, getWorker w = Some worker →
    let '(s, _, t) := exec body w in
    sends ok t ∧
    match s with
    | Suspended _ k => rest_sends ok worker k
    | _ => True
    end.

Definition parked_send (ok : WorkerConnection * WorkerMessage → Prop)
    (worker : WorkerConnection) (w : World) : Prop :=
  Forall (λ entry, rest_sends ok worker (task_rest entry.2)) (waiting w).

(** ** A concrete host, for examples *)

Definition example_context : ExtensionContext :=
  {| extensionPath := "/home/user/.vscode/extensions/malloy" |}.

Definition example_settings (section : string) : gmap string JsValue :=
  if String.eqb section "cloudcode"
  then {[ "cloudshell.project" := VString "my-project" ]}
  else ∅.

Definition example_world : World :=
  (exec (activate example_context) (startup ∅ example_settings "/home/user")).1.2.

(** An event for a change of the setting [malloy.connections] alone. *)
Definition malloy_changed : ConfigurationChangeEvent :=
  {| affectsConfiguration := λ section, String.eqb section "malloy" |}.

(** A request from the language server, and what it is answered with. *)
Definition example_request : FetchEvent :=
  {| uri := "file:///home/user/flights.malloy" |}.
Definition example_answer : Outcome :=
  Fulfilled (VString "source: flights is table('flights')").

(** An event for a change in some other extension's section. *)
Definition editor_changed : ConfigurationChangeEvent :=
  {| affectsConfiguration := λ section, String.eqb section "editor" |}.

(** * Properties *)

(** The cases of the setting [cloudshellEnv] reads, split far enough for
    its test to compute. *)
Ltac setting_cases cloudcode :=
  destruct (config_get cloudcode "cloudshell.project")
    as [| |[|]|[|?|?]| |[|? ?]|?] eqn:?.

(** ** Laws of the interpreter *)

Lemma exec_bind {A B : Type} (m : Prog A) (f : A → Prog B) (w : World) :
  exec (m ≫= f) w =
  match exec m w with
  | (Returned a, w1, t1) =>
      let '(s, w2, t2) := exec (f a) w1 in (s, w2, t1 ++ t2)
  | (Thrown e, w1, t1) => (Thrown e, w1, t1)
  | (Suspended p k, w1, t1) => (Suspended p (λ v, k v ≫= f), w1, t1)
  end.
Proof.
  revert f w.
  induction m as [A a|A e|A X op k IH|A p k IH|A body IHb k IH]; intros f w; cbn.
  - by destruct (exec (f a) w) as [[s w2] t2].
  - done.
  - destruct (perform op w) as [x w1].
    change (bind (k x) f) with (k x ≫= f). rewrite IH.
    destruct (exec (k x) w1) as [[[a|e|p k'] w2] t2]; try done.
    by destruct (exec (f a) w2) as [[s w3] t3].
  - done.
  - destruct (exec body _) as [[s1 w1] t1].
    destruct (conclude _ s1 w1) as [w2 t2].
    change (bind (k ?q) f) with (k q ≫= f). rewrite IH.
    destruct (exec (k _) w2) as [[[a|e|p k'] w3] t3]; try done.
    destruct (exec (f a) w3) as [[s w4] t4]. by rewrite <- !app_assoc.
Qed.

(** A promise that is rejected ends the function that awaits it: nothing
    of the rest of its body runs. *)
Lemma resume_rejected (reason : JsValue) (t : Task) (w : World) :
  resume (Rejected reason) t w = (w, [Settled (task_promise t) (Rejected reason)]).
Proof. done. Qed.

(** ** The functions one by one *)

(** The condition of [cloudshellEnv] holds of the non-empty strings and of
    nothing else. *)
Lemma truthy_string (v : JsValue) :
  truthy v && String.eqb (typeof v) "string" = true ↔
  ∃ p, v = VString p ∧ p ≠ "".
Proof.
  split.
  - destruct v as [| |b|n| |[|a s]|tag]; cbn; rewrite ?andb_false_r; try done.
    intros _. by eexists.
  - intros (p & -> & Hp). by destruct p.
Qed.

(** [sendWorkerConfig] with a worker registered. *)
Lemma exec_sendWorkerConfig (worker : WorkerConnection) (w : World) :
  getWorker w = Some worker →
  exec sendWorkerConfig w = (Returned (), w, config_sent worker w).
Proof. intros H. cbn. by rewrite H. Qed.

(** [sendWorkerConfig] with no worker registered: the member access on
    [undefined] throws, and nothing is sent. *)
Lemma exec_sendWorkerConfig_absent (w : World) :
  getWorker w = None →
  ∃ e, exec sendWorkerConfig w = (Thrown e, w, [Call GetWorker None]).
Proof. intros H. cbn. rewrite H. by eexists. Qed.

(** A string without a NUL character is stored as it is. *)
Lemma c_string_without_NUL (p : string) :
  Ascii.zero ∉ String.list_ascii_of_string p → c_string p = p.
Proof.
  induction p as [|a p IH]; [done|]. cbn. intros Hp.
  apply not_elem_of_cons in Hp as [Ha Hp].
  destruct (Ascii.eqb_spec a Ascii.zero) as [->|_]; [done|]. by rewrite IH.
Qed.

(** A run of [cloudshellEnv], in any world: it returns; if the setting
    is a truthy value of type string, it is a string [p] and the three
    variables hold [p] as a C string afterwards, every other variable
    being as before; otherwise nothing at all is changed. *)
Lemma cloudshellEnv_run (w : World) :
  let v := cloudShellProject w in
  let '(s, w', _) := exec cloudshellEnv w in
  s = Returned () ∧
  if truthy v && String.eqb (typeof v) "string" then
    ∃ p, v = VString p ∧
         process_env w' !! "DEVSHELL_PROJECT_ID" = Some (c_string p) ∧
         process_env w' !! "GOOGLE_CLOUD_PROJECT" = Some (c_string p) ∧
         process_env w' !! "GOOGLE_CLOUD_QUOTA_PROJECT" = Some (c_string p) ∧
         ∀ name, name ∉ ["DEVSHELL_PROJECT_ID"; "GOOGLE_CLOUD_PROJECT";
                         "GOOGLE_CLOUD_QUOTA_PROJECT"] →
                 process_env w' !! name = process_env w !! name
  else w' = w.
Proof.
  unfold cloudShellProject. cbn.
  destruct (config_get (settings w "cloudcode") "cloudshell.project")
    as [| |b|n| |[|a s]|tag] eqn:E; cbn; rewrite ?andb_false_r; cbn;
    (split; [done|]); try done.
  eexists. split; [done|]. split_and!; [by simplify_map_eq..|].
  intros name Hname. rewrite !not_elem_of_cons in Hname.
  destruct Hname as (? & ? & ? & _). by rewrite !lookup_insert_ne.
Qed.

(** What a run makes of [process.env] depends on the setting and on
    [process.env], and on nothing else of the world. *)
Lemma cloudshellEnv_process_env (w : World) :
  process_env (exec cloudshellEnv w).1.2 =
  match cloudShellProject w with
  | VString (String a s) =>
      <["GOOGLE_CLOUD_QUOTA_PROJECT" := c_string (String a s)]>
        (<["GOOGLE_CLOUD_PROJECT" := c_string (String a s)]>
           (<["DEVSHELL_PROJECT_ID" := c_string (String a s)]> (process_env w)))
  | _ => process_env w
  end.
Proof.
  unfold cloudShellProject. cbn. by setting_cases (settings w "cloudcode").
Qed.

Lemma cloudshellEnv_process_env_depends (w w' : World) :
  settings w' = settings w → process_env w' = process_env w →
  process_env (exec cloudshellEnv w').1.2 = process_env (exec cloudshellEnv w).1.2.
Proof.
  intros Hs He. rewrite !cloudshellEnv_process_env.
  unfold cloudShellProject. by rewrite Hs, He.
Qed.

Lemma cloudshellEnv_returns (w : World) :
  (exec cloudshellEnv w).1.1 = Returned ().
Proof.
  cbn. by setting_cases (settings w "cloudcode").
Qed.

Lemma cloudshell_change_runs_cloudshellEnv
    (l : ConfigurationListener) (e : ConfigurationChangeEvent) (w : World) :
  affectsConfiguration e "malloy" = false →
  affectsConfiguration e "cloudshell" = true →
  exec (listener_body l e) w =
    (Returned VUndefined, (exec cloudshellEnv w).1.2, cloudshellEnv_calls w).
Proof.
  intros Hm Hc. destruct l as [tree]. unfold listener_body, cloudshellEnv_calls.
  rewrite Hm, Hc.
  change (exec (cloudshellEnv ≫= (λ _, mret VUndefined)) w =
          (Returned VUndefined, (exec cloudshellEnv w).1.2,
           (exec cloudshellEnv w).2)).
  rewrite exec_bind.
  pose proof (cloudshellEnv_returns w) as Hr.
  destruct (exec cloudshellEnv w) as [[s w1] t1]. cbn in Hr. subst s.
  cbn. by rewrite app_nil_r.
Qed.

(** C7. After [setupWorker context] has returned, [getWorker()] gives the
    [WorkerConnection] built from [context], and exactly one message has
    been sent: a [config] message to that worker, carrying the current
    [malloy] configuration. *)
Theorem setupWorker_registers_and_sends_config
    (context : ExtensionContext) (w : World) :
  let '(s, w', t) := exec (setupWorker context) w in
  s = Returned () ∧
  getWorker w' = Some (worker_of context) ∧
  worker_messages t =
    [(worker_of context, Msg_config (settings w' "malloy"))] ∧
  t = Call (New_WorkerConnection context) (worker_of context)
      :: Call (SetWorker (worker_of context)) ()
      :: config_sent (worker_of context) w.
Proof. cbn. done. Qed.

(** C10. For a configuration change that affects neither [malloy] nor
    [cloudshell] the listener makes no call at all and leaves the world as
    it is: no message to the worker, no refresh of the tree, no update of
    the connection manager, no change of [process.env]. *)
Theorem unrelated_configuration_change_is_silent
    (l : ConfigurationListener) (e : ConfigurationChangeEvent) (w : World) :
  affectsConfiguration e "malloy" = false →
  affectsConfiguration e "cloudshell" = false →
  exec (listener_body l e) w = (Returned VUndefined, w, []).
Proof. intros Hm Hc. destruct l. cbn. by rewrite Hm, Hc. Qed.

Lemma unrelated_configuration_change_is_silent_witness :
  exec (listener_body (activate_listener (connectionsTree_of example_context))
          editor_changed) example_world
  = (Returned VUndefined, example_world, []).
Proof.
  apply (unrelated_configuration_change_is_silent
           (activate_listener (connectionsTree_of example_context))
           editor_changed example_world); reflexivity.
Defined.

(** C9. [deactivate] calls [client.stop()] only if a client was created,
    and sends [{type: 'exit'}] only to a worker [getWorker()] returns.
    With no client it does not suspend; with neither client nor worker it
    makes no call besides the two reads.  With a client, nothing is sent
    before the promise of [client.stop()] settles: the message goes out
    when that promise is fulfilled, and not at all when it is rejected. *)
Theorem deactivate_guards (w : World) :
  let exit_sent (w : World) : list Event :=
    Call GetWorker (getWorker w)
    :: match getWorker w with
       | Some worker => [Call (Worker_send worker Msg_exit) ()]
       | None => []
       end in
  match client w with
  | None =>
      exec deactivate w =
        (Returned VUndefined, w, Call Client_read None :: exit_sent w)
  | Some c =>
      ∃ k,
        exec deactivate w =
          (Suspended (next_promise w) k,
           set_next_promise (S (next_promise w)) w,
           [Call Client_read (Some c); Call (Client_stop c) (next_promise w)]) ∧
        (∀ v w2, exec (k v) w2 = (Returned VUndefined, w2, exit_sent w2)) ∧
        (∀ reason q w2,
           resume (Rejected reason) {| task_promise := q; task_rest := k |} w2 =
             (w2, [Settled q (Rejected reason)]))
  end.
Proof.
  cbn. destruct (client w) as [c|]; cbn.
  - eexists. split; [reflexivity|]. split; [|done].
    intros v w2. cbn. by destruct (getWorker w2).
  - by destruct (getWorker w).
Qed.

(** C5. [setupLanguageServer] builds a [LanguageClient] with id [malloy],
    the language [malloy] as its document selector and [malloy] as its
    synchronized configuration section, starts it, calls [onReady] and
    stops there: no request handler has been registered.  The three
    handlers are registered when the promise of [onReady] is fulfilled,
    and are not if it is rejected. *)
Theorem setupLanguageServer_registers_after_ready
    (context : ExtensionContext) (w : World) :
  let c := client_of context in
  let ready := next_promise w in
  lc_id c = "malloy" ∧
  documentSelector (lc_clientOptions c) = [ {| language := "malloy" |} ] ∧
  configurationSection (synchronize (lc_clientOptions c)) = "malloy" ∧
  ∃ k,
    exec (setupLanguageServer context) w =
      (Suspended ready k,
       set_next_promise (S ready) (set_client (Some c) w),
       language_server_calls context ready) ∧
    (∀ v w2,
       ∃ w3,
         exec (k v) w2 = (Returned VUndefined, w3, request_handler_calls context) ∧
         request_handlers w3 =
           <["malloy/fetchCellData" := fetchCellData_handler]>
             (<["malloy/fetchBinaryFile" := fetchBinaryFile_handler]>
                (<["malloy/fetchFile" := fetchFile_handler]>
                   (request_handlers w2)))) ∧
    (∀ reason q w2,
       resume (Rejected reason) {| task_promise := q; task_rest := k |} w2 =
         (w2, [Settled q (Rejected reason)])).
Proof.
  cbn. split_and!; [done..|].
  eexists. split; [reflexivity|]. split; [|done]. intros v w2.
  eexists. split; reflexivity.
Qed.

(** ** [activate] *)

(** C4, as stated, at a concrete execution: [activate] in a fresh host,
    then the promise of [client.onReady()] fulfilled.  Calls of
    [setupLanguageServer] (the three [onRequest]) come after calls of
    [setupWorker]. *)
Lemma setupWorker_runs_before_setupLanguageServer_completes :
  setupLanguageServer_completes_first
    (execution ∅ example_settings "/home/user" example_context
       [PromiseSettled 1 (Fulfilled VUndefined)]).2 = false.
Proof. vm_compute. reflexivity. Qed.

(** C4, amended. [activate] returns, and its calls are, in this order:
    those of the subscription setup, of the construction of the tree view,
    of the home URI, of the two registrations, of [cloudshellEnv], of the
    registration of the configuration listener, of [setupLanguageServer]
    up to its [await], and of [setupWorker].  When [activate] returns
    [setupLanguageServer] has not completed: it is parked on the promise
    of [onReady], no request handler is registered, and the rest of its
    body, which registers the three handlers, runs in a later turn. *)
Theorem activate_order (context : ExtensionContext) (w : World) :
  let '(s, w', t) := exec (activate context) w in
  s = Returned () ∧
  t = subscription_setup_calls context ++ tree_view_calls context
      ++ home_uri_calls w ++ registration_calls context
      ++ cloudshellEnv_calls w ++ listener_calls context
      ++ language_server_calls context (S (next_promise w))
      ++ worker_calls context w ∧
  request_handlers w' = request_handlers w ∧
  waiting w' =
    waiting w
    ++ [(S (next_promise w),
         {| task_promise := next_promise w;
            task_rest := setupLanguageServer_rest context |})] ∧
  ∀ v w2,
    let '(s2, _, t2) := exec (setupLanguageServer_rest context v) w2 in
    s2 = Returned VUndefined ∧ t2 = request_handler_calls context.
Proof.
  unfold cloudshellEnv_calls. cbn.
  setting_cases (settings w "cloudcode").
  all: repeat split; exact eq_refl.
Qed.

(** What [activate] does to [process.env] is what its one call of
    [cloudshellEnv] does. *)
Lemma activate_propagates_cloudshell (context : ExtensionContext) (w : World) :
  process_env (exec (activate context) w).1.2 =
  process_env (exec cloudshellEnv w).1.2.
Proof.
  cbn. setting_cases (settings w "cloudcode"); exact eq_refl.
Qed.


(** Within the turn of [activate] itself the test holds: what fails it is
    the part of [setupLanguageServer] that runs later. *)
Lemma activate_own_calls_in_order :
  setupLanguageServer_completes_first
    (execution ∅ example_settings "/home/user" example_context []).2 = true.
Proof. vm_compute. reflexivity. Qed.

(** ** The worker registry *)

(** Nothing in the file, and no call it can make, empties the registry:
    [setWorker] is the only writer and it writes a worker.  So from a
    world with a worker, every program, every resumed function and every
    turn ends in a world with a worker, and every [getWorker()] on the way
    finds one. *)
Lemma keeps_worker_nil (w : World) :
  is_Some (worker w) → keeps_worker (w, []).
Proof. intros Hw. split; [done|constructor]. Qed.

Lemma keeps_worker_app (w : World) (t1 t2 : list Event) :
  worker_reads_ok t1 → keeps_worker (w, t2) → keeps_worker (w, t1 ++ t2).
Proof.
  intros H1 [Hw H2]. split; [done|]. by apply Forall_app.
Qed.

Lemma perform_keeps_worker {X : Type} (op : Op X) (w : World) :
  is_Some (worker w) →
  is_Some (worker (perform op w).2) ∧
  worker_absent (Call op (perform op w).1) = false.
Proof.
  intros Hw. destruct op; cbn; try done.
  split; [done|]. unfold getWorker. by destruct Hw as [? ->].
Qed.

Lemma conclude_keeps_worker (q : Promise) (s : Status JsValue) (w : World) :
  is_Some (worker w) → keeps_worker (conclude q s w).
Proof. intros Hw. destruct s; cbn; split; try done; repeat constructor. Qed.

Lemma exec_keeps_worker {R : Type} (prog : Prog R) (w : World) :
  is_Some (worker w) →
  keeps_worker ((exec prog w).1.2, (exec prog w).2).
Proof.
  revert w.
  induction prog as [A a|A e|A X op k IH|A p k IH|A body IHb k IH];
    intros w Hw; cbn.
  - by apply keeps_worker_nil.
  - by apply keeps_worker_nil.
  - destruct (perform_keeps_worker op w Hw) as [H1 H2].
    destruct (perform op w) as [x w1]; cbn in *.
    destruct (IH x w1 H1) as [H3 H4].
    destruct (exec (k x) w1) as [[s w2] t]; cbn in *.
    split; [done|by constructor].
  - by apply keeps_worker_nil.
  - destruct (IHb (set_next_promise (S (next_promise w)) w) Hw) as [H1 H2].
    destruct (exec body _) as [[s1 w1] t1]; cbn in *.
    destruct (conclude_keeps_worker (next_promise w) s1 w1 H1) as [H3 H4].
    destruct (conclude _ s1 w1) as [w2 t2]; cbn in *.
    destruct (IH (next_promise w) w2 H3) as [H5 H6].
    destruct (exec (k _) w2) as [[s3 w3] t3]; cbn in *.
    apply keeps_worker_app; [done|]. by apply keeps_worker_app.
Qed.

Lemma call_async_keeps_worker (body : Prog JsValue) (w : World) :
  is_Some (worker w) → keeps_worker (call_async body w).
Proof.
  intros Hw. unfold call_async. cbn.
  destruct (exec_keeps_worker body (set_next_promise (S (next_promise w)) w) Hw)
    as [H1 H2].
  destruct (exec body _) as [[s w1] t1]; cbn in *.
  destruct (conclude_keeps_worker (next_promise w) s w1 H1) as [H3 H4].
  destruct (conclude _ s w1) as [w2 t2]; cbn in *.
  by apply keeps_worker_app.
Qed.

Lemma resume_keeps_worker (o : Outcome) (t : Task) (w : World) :
  is_Some (worker w) → keeps_worker (resume o t w).
Proof.
  intros Hw. destruct o as [v|r]; cbn.
  - destruct (exec_keeps_worker (task_rest t v) w Hw) as [H1 H2].
    destruct (exec _ w) as [[s w1] t1]; cbn in *.
    destruct (conclude_keeps_worker (task_promise t) s w1 H1) as [H3 H4].
    destruct (conclude _ s w1) as [w2 t2]; cbn in *.
    by apply keeps_worker_app.
  - split; [done|repeat constructor].
Qed.

Lemma resume_all_keeps_worker (o : Outcome) (ts : list Task) (w : World) :
  is_Some (worker w) → keeps_worker (resume_all o ts w).
Proof.
  revert w. induction ts as [|t ts IH]; intros w Hw; cbn.
  - by apply keeps_worker_nil.
  - destruct (resume_keeps_worker o t w Hw) as [H1 H2].
    destruct (resume o t w) as [w1 t1]; cbn in *.
    specialize (IH w1 H1).
    destruct (resume_all o ts w1) as [w2 t2]. by apply keeps_worker_app.
Qed.

Lemma notify_keeps_worker (ls : list ConfigurationListener)
    (e : ConfigurationChangeEvent) (w : World) :
  is_Some (worker w) → keeps_worker (notify ls e w).
Proof.
  revert w. induction ls as [|l ls IH]; intros w Hw; cbn -[call_async].
  - by apply keeps_worker_nil.
  - destruct (call_async_keeps_worker (listener_body l e) w Hw) as [H1 H2].
    destruct (call_async _ w) as [w1 t1]; cbn in *.
    specialize (IH w1 H1).
    destruct (notify ls e w1) as [w2 t2]. by apply keeps_worker_app.
Qed.

Lemma turn_keeps_worker (t : Turn) (w : World) :
  is_Some (worker w) → keeps_worker (turn t w).
Proof.
  intros Hw. destruct t as [new_settings e|method params|p o|]; cbn -[call_async].
  - by apply notify_keeps_worker.
  - destruct (request_handlers w !! method).
    + by apply call_async_keeps_worker.
    + by apply keeps_worker_nil.
  - by apply resume_all_keeps_worker.
  - by apply call_async_keeps_worker.
Qed.

Lemma turns_keep_worker (ts : list Turn) (w : World) :
  is_Some (worker w) → keeps_worker (turns ts w).
Proof.
  revert w. induction ts as [|t ts IH]; intros w Hw; cbn -[turn].
  - by apply keeps_worker_nil.
  - destruct (turn_keeps_worker t w Hw) as [H1 H2].
    destruct (turn t w) as [w1 t1]; cbn in *.
    specialize (IH w1 H1).
    destruct (turns ts w1) as [w2 t2]. by apply keeps_worker_app.
Qed.

(** [activate] itself registers the worker before it reads the registry. *)
Lemma activate_registers_worker (context : ExtensionContext) (w : World) :
  let '(s, w', t) := exec (activate context) w in
  s = Returned () ∧ worker w' = Some (worker_of context) ∧ worker_reads_ok t.
Proof.
  cbn. setting_cases (settings w "cloudcode").
  all: split; [exact eq_refl|split; [exact eq_refl|]]; repeat constructor.
Qed.

(** C8. In every execution, [activate] started in any world and followed
    by any turns of the host, [activate] returns, no [getWorker()] ever
    finds the registry empty, in [activate] or in any later turn, and at
    the end a worker is registered, so that [sendWorkerConfig] called
    there returns after sending its message. *)
Theorem worker_registered_before_every_read
    (context : ExtensionContext) (w : World) (ts : list Turn) :
  let '(s, w1, t1) := exec (activate context) w in
  let '(w2, t2) := turns ts w1 in
  s = Returned () ∧
  worker_reads_ok (t1 ++ t2) ∧
  ∃ worker,
    getWorker w2 = Some worker ∧
    exec sendWorkerConfig w2 = (Returned (), w2, config_sent worker w2).
Proof.
  pose proof (activate_registers_worker context w) as Hactivate.
  destruct (exec (activate context) w) as [[s w1] t1].
  destruct Hactivate as (Hs & Hworker & Hreads).
  assert (is_Some (worker w1)) as Hw1 by (by rewrite Hworker).
  pose proof (turns_keep_worker ts w1 Hw1) as Hturns.
  destruct (turns ts w1) as [w2 t2]. destruct Hturns as [[worker Hw2] Hreads2].
  split; [done|]. split; [by apply Forall_app|].
  exists worker. split; [done|]. by apply exec_sendWorkerConfig.
Qed.

(** ** Executions *)

(** *** Lists of parked functions *)

Lemma Forall_List_filter {A : Type} (P : A → Prop) (f : A → bool) (l : list A) :
  Forall P l → Forall P (List.filter f l).
Proof.
  induction 1 as [|x l Hx _ IH]; simpl; [constructor|].
  destruct (f x); [by constructor|done].
Qed.

Lemma filter_awaits_fresh (p : Promise) (ws : list (Promise * Task)) :
  Forall (λ entry, entry.1 ≠ p) ws →
  List.filter (awaits p) ws = [] ∧
  List.filter (λ entry, negb (awaits p entry)) ws = ws.
Proof.
  induction 1 as [|[p' t] ws Hp _ [IH1 IH2]]; [done|].
  simpl in Hp. apply Nat.eqb_neq in Hp.
  unfold awaits in *. simpl. rewrite Hp. simpl. by rewrite IH1, IH2.
Qed.

Lemma filter_awaits_others (p p' : Promise) (ws : list (Promise * Task)) :
  p' ≠ p →
  List.filter (awaits p) (List.filter (λ entry, negb (awaits p' entry)) ws) =
  List.filter (awaits p) ws.
Proof.
  intros Hp. induction ws as [|[q t] ws IH]; simpl; [done|].
  unfold awaits in *. simpl.
  destruct (Nat.eqb_spec q p') as [->|Hq]; simpl.
  - replace (p' =? p)%nat with false by (symmetry; by apply Nat.eqb_neq). done.
  - destruct (q =? p)%nat; by rewrite IH.
Qed.

Lemma well_parked_weaken (ws : list (Promise * Task)) (n n' : Promise) :
  (n ≤ n')%nat →
  Forall (λ entry, (entry.1 < n)%nat ∧ runs_to_the_end (task_rest entry.2)) ws →
  Forall (λ entry, (entry.1 < n')%nat ∧ runs_to_the_end (task_rest entry.2)) ws.
Proof.
  intros Hn H. eapply Forall_impl; [exact H|].
  intros entry [H1 H2]. split; [lia|done].
Qed.

(** No parked function awaits a promise that does not exist yet. *)
Lemma well_parked_fresh (w : World) (p : Promise) :
  well_parked w → (next_promise w ≤ p)%nat →
  List.filter (awaits p) (waiting w) = [].
Proof.
  intros Hp Hn. apply filter_awaits_fresh.
  eapply Forall_impl; [exact Hp|]. intros entry [H _]. lia.
Qed.

Lemma execution_app env config home context ts ts' :
  execution env config home context (ts ++ ts') =
  let '(w, t) := execution env config home context ts in
  let '(w', t') := turns ts' w in
  (w', t ++ t').
Proof.
  unfold execution. destruct (exec (activate context) _) as [[s w1] t1].
  revert w1 t1. induction ts as [|t ts IH]; intros w1 t1; cbn -[turn].
  - destruct (turns ts' w1) as [w2 t2]. by rewrite app_nil_r.
  - destruct (turn t w1) as [w2 t2].
    specialize (IH w2 (t1 ++ t2)).
    destruct (turns (ts ++ ts') w2) as [w3 t3].
    destruct (turns ts w2) as [w4 t4].
    destruct (turns ts' w4) as [w5 t5].
    injection IH as -> Ht.
    f_equal. rewrite <- !app_assoc in *. by apply app_inv_head in Ht as ->.
Qed.

(** *** The functions the host calls *)

Ltac undisturbed :=
  unfold undisturbed, handlers_registered; cbn; by repeat split.

Lemma undisturbed_trans w1 w2 w3 :
  undisturbed w1 w2 → undisturbed w2 w3 → undisturbed w1 w3.
Proof.
  intros (H1 & H2 & H3 & H4) (H1' & H2' & H3' & H4').
  split_and!; [congruence..|tauto].
Qed.

Lemma handler_awaits_once h event : awaits_once (handler_body h event).
Proof.
  intros w. destruct h; cbn.
  all: split; [undisturbed|]; split; [lia|]; split; [lia|]; split; [lia|].
  all: intros v w2; cbn; split; [undisturbed|done].
Qed.

Lemma deactivate_awaits_once : awaits_once deactivate.
Proof.
  intros w. cbn. destruct (client w) as [c|]; cbn.
  - split; [undisturbed|]; split; [lia|]; split; [lia|]; split; [lia|].
    intros v w2. cbn. destruct (getWorker w2); cbn; (split; [undisturbed|done]).
  - destruct (getWorker w); cbn; (split; [undisturbed|]); split; (lia || done).
Qed.

Lemma listener_awaits_once l e : awaits_once (listener_body l e).
Proof.
  intros w. destruct l as [tree]. cbn.
  destruct (affectsConfiguration e "malloy"),
           (affectsConfiguration e "cloudshell"); cbn.
  - split; [undisturbed|]; split; [lia|]; split; [lia|]; split; [lia|].
    intros v w2. cbn. destruct (getWorker w2); cbn; [|split; [undisturbed|done]].
    setting_cases (settings w2 "cloudcode"); (split; [undisturbed|done]).
  - split; [undisturbed|]; split; [lia|]; split; [lia|]; split; [lia|].
    intros v w2. cbn. destruct (getWorker w2); cbn; (split; [undisturbed|done]).
  - setting_cases (settings w "cloudcode");
      (split; [undisturbed|]); split; (lia || done).
  - split; [undisturbed|]; split; (lia || done).
Qed.

Lemma setupLanguageServer_rest_runs_to_the_end context :
  runs_to_the_end (setupLanguageServer_rest context).
Proof.
  intros v w. cbn. split; [|done].
  unfold undisturbed, handlers_registered, registered_handlers. cbn.
  split_and!; [done..|]. intros _.
  repeat constructor.
  - by rewrite lookup_insert_ne, lookup_insert_ne, lookup_insert_eq.
  - by rewrite lookup_insert_ne, lookup_insert_eq.
  - by rewrite lookup_insert_eq.
Qed.

(** *** Turns *)

(** A call by the host keeps what [activate] established; it parks at
    most one function, on a promise newer than any that existed. *)
Lemma call_async_ok context body w :
  awaits_once body → activated_by context w →
  let '(w', _) := call_async body w in
  turn_ok context w w' ∧
  ∀ p, (p < next_promise w)%nat →
       List.filter (awaits p) (waiting w') = List.filter (awaits p) (waiting w).
Proof.
  intros Hbody (Hl & Hw & Hp). unfold call_async. cbn.
  specialize (Hbody (set_next_promise (S (next_promise w)) w)).
  destruct (exec body _) as [[s w1] t1].
  destruct Hbody as ((Hl1 & Hw1 & Hwait1 & Hh1) & Hn1 & Hs). simpl in *.
  assert (Forall (λ entry, (entry.1 < next_promise w1)%nat ∧
                   runs_to_the_end (task_rest entry.2)) (waiting w))
    as Hparked by (eapply well_parked_weaken; [|exact Hp]; lia).
  destruct s as [r|r|p k]; cbn.
  - split; [|by intros; rewrite Hwait1].
    split; [|split; [lia|done]].
    split; [congruence|]. split; [congruence|].
    unfold well_parked. by rewrite Hwait1.
  - split; [|by intros; rewrite Hwait1].
    split; [|split; [lia|done]].
    split; [congruence|]. split; [congruence|].
    unfold well_parked. by rewrite Hwait1.
  - destruct Hs as (Hlo & Hhi & Hk). split.
    + unfold turn_ok, activated_by, well_parked, handlers_registered. cbn.
      split_and!; [congruence|congruence| |lia|done].
      rewrite Hwait1. apply Forall_app. split; [done|]. by repeat constructor.
    + intros p' Hp'. rewrite Hwait1, List.filter_app. cbn.
      unfold awaits at 2. cbn.
      replace (p =? p')%nat with false by (symmetry; apply Nat.eqb_neq; lia).
      by rewrite app_nil_r.
Qed.

Lemma resume_ok (o : Outcome) (t : Task) (w : World) :
  runs_to_the_end (task_rest t) →
  let '(w', _) := resume o t w in
  undisturbed w w' ∧ next_promise w' = next_promise w.
Proof.
  intros Hk. destruct o as [v|r]; cbn; [|by split; [undisturbed|]].
  specialize (Hk v w). destruct (exec (task_rest t v) w) as [[s w1] t1].
  destruct Hk as (Hu & Hn & Hs). by destruct s.
Qed.

Lemma resume_all_ok (o : Outcome) (ts : list Task) (w : World) :
  Forall (λ t, runs_to_the_end (task_rest t)) ts →
  let '(w', _) := resume_all o ts w in
  undisturbed w w' ∧ next_promise w' = next_promise w.
Proof.
  intros Hts. revert w. induction Hts as [|t ts Ht _ IH]; intros w; cbn.
  - by split; [undisturbed|].
  - pose proof (resume_ok o t w Ht) as H1.
    destruct (resume o t w) as [w1 t1]. destruct H1 as [Hu1 Hn1].
    specialize (IH w1). destruct (resume_all o ts w1) as [w2 t2].
    destruct IH as [Hu2 Hn2]. split; [by eapply undisturbed_trans|congruence].
Qed.

(** Every turn keeps what [activate] established, and a turn that does
    not settle [p] leaves the functions parked on [p] where they are. *)
Lemma turn_keeps_activated (context : ExtensionContext) (t : Turn) (w : World) :
  activated_by context w →
  let '(w', _) := turn t w in
  turn_ok context w w' ∧
  ∀ p, (p < next_promise w)%nat → settles p t = false →
       List.filter (awaits p) (waiting w') = List.filter (awaits p) (waiting w).
Proof.
  intros Hact. destruct t as [new_settings e|method params|p o|].
  - pose proof Hact as (Hl & Hw & Hp).
    unfold turn. cbn [configuration_listeners set_settings]. rewrite Hl.
    cbn [notify].
    assert (activated_by context (set_settings new_settings w)) as Hact' by done.
    pose proof (call_async_ok context _ (set_settings new_settings w)
                  (listener_awaits_once
                     (activate_listener (connectionsTree_of context)) e)
                  Hact') as Hcall.
    destruct (call_async _ (set_settings new_settings w)) as [w1 t1].
    destruct Hcall as [Hok Hfilter]. split; [done|].
    intros p Hp' _. by apply Hfilter.
  - unfold turn. destruct (request_handlers w !! method) as [h|].
    + pose proof (call_async_ok context _ w (handler_awaits_once h params) Hact)
        as Hcall.
      destruct (call_async _ w) as [w1 t1].
      destruct Hcall as [Hok Hfilter]. split; [done|].
      intros p Hp' _. by apply Hfilter.
    + split; [|done]. by split.
  - pose proof Hact as (Hl & Hw & Hp).
    unfold turn.
    set (woken := List.filter (awaits p) (waiting w)).
    set (others := List.filter (λ entry, negb (awaits p entry)) (waiting w)).
    assert (Forall (λ t, runs_to_the_end (task_rest t)) (woken.*2)) as Hwoken.
    { apply Forall_fmap. apply Forall_List_filter.
      eapply Forall_impl; [exact Hp|]. by intros entry [_ H]. }
    pose proof (resume_all_ok o (woken.*2) (set_waiting others w) Hwoken) as Hres.
    destruct (resume_all o _ (set_waiting others w)) as [w1 t1].
    destruct Hres as ((Hl1 & Hw1 & Hwait1 & Hh1) & Hn1).
    cbn in Hl1, Hw1, Hwait1, Hn1.
    split.
    + split; [|split; [lia|done]].
      split; [congruence|]. split; [congruence|].
      unfold well_parked. rewrite Hwait1, Hn1. by apply Forall_List_filter.
    + intros p' Hp' Hsettles. cbn in Hsettles. apply Nat.eqb_neq in Hsettles.
      rewrite Hwait1. by apply filter_awaits_others.
  - unfold turn.
    pose proof (call_async_ok context _ w deactivate_awaits_once Hact) as Hcall.
    destruct (call_async _ w) as [w1 t1].
    destruct Hcall as [Hok Hfilter]. split; [done|].
    intros p Hp' _. by apply Hfilter.
Qed.

Lemma turns_keep_activated (context : ExtensionContext) (ts : list Turn)
    (w : World) :
  activated_by context w →
  let '(w', _) := turns ts w in
  turn_ok context w w' ∧
  ∀ p, (p < next_promise w)%nat →
       forallb (λ t, negb (settles p t)) ts = true →
       List.filter (awaits p) (waiting w') = List.filter (awaits p) (waiting w).
Proof.
  revert w. induction ts as [|t ts IH]; intros w Hact; cbn -[turn].
  - split; [|done]. by split.
  - pose proof (turn_keeps_activated context t w Hact) as Hturn.
    destruct (turn t w) as [w1 t1]. destruct Hturn as [(Hact1 & Hn1 & Hh1) Hf1].
    specialize (IH w1 Hact1). destruct (turns ts w1) as [w2 t2].
    destruct IH as [(Hact2 & Hn2 & Hh2) Hf2].
    split; [split; [done|split; [lia|tauto]]|].
    intros p Hp Hts. apply andb_prop in Hts as [Ht Hts].
    apply negb_true_iff in Ht.
    rewrite Hf2; [by apply Hf1|lia|done].
Qed.

(** *** From [activate] on *)

Lemma activate_world (context : ExtensionContext) (w : World) :
  let '(_, w', _) := exec (activate context) w in
  configuration_listeners w' =
    configuration_listeners w ++ [activate_listener (connectionsTree_of context)] ∧
  worker w' = Some (worker_of context) ∧
  client w' = Some (client_of context) ∧
  waiting w' =
    waiting w
    ++ [(S (next_promise w),
         {| task_promise := next_promise w;
            task_rest := setupLanguageServer_rest context |})] ∧
  next_promise w' = S (S (next_promise w)).
Proof.
  cbn. setting_cases (settings w "cloudcode").
  all: repeat split; exact eq_refl.
Qed.

Lemma activate_activates env config home context :
  activated_by context (execution env config home context []).1.
Proof.
  unfold execution.
  pose proof (activate_world context (startup env config home)) as H.
  destruct (exec (activate context) (startup env config home)) as [[s w1] t1].
  destruct H as (Hl & Hw & _ & Hwait & Hn). cbn in *.
  split; [done|]. split; [done|].
  unfold well_parked. rewrite Hwait, Hn.
  constructor; [|constructor].
  split; [cbn; lia|apply setupLanguageServer_rest_runs_to_the_end].
Qed.

(** In every execution the listener of [activate] is the one registered,
    the worker of [activate] is the one registered, and the parked
    functions are well parked. *)
Lemma executions_stay_activated env config home context ts :
  activated_by context (execution env config home context ts).1.
Proof.
  pose proof (activate_activates env config home context) as Hact.
  pose proof (execution_app env config home context [] ts) as Happ.
  cbn [app] in Happ. rewrite Happ.
  destruct (execution env config home context []) as [w t]. cbn in Hact.
  pose proof (turns_keep_activated context ts w Hact) as Hts.
  destruct (turns ts w) as [w' t']. by destruct Hts as [[? _] _].
Qed.

(** The request handlers are registered from the turn in which the
    promise of [onReady] (the promise [1] of the execution) is fulfilled,
    and stay registered. *)
Lemma handlers_registered_after_ready env config home context ts0 v ts :
  forallb (λ t, negb (settles 1 t)) ts0 = true →
  handlers_registered
    (execution env config home context
       (ts0 ++ [PromiseSettled 1 (Fulfilled v)] ++ ts)).1.
Proof.
  intros Hts0.
  rewrite execution_app.
  pose proof (activate_activates env config home context) as Hact.
  pose proof (execution_app env config home context [] ts0) as Happ.
  cbn [app] in Happ. rewrite Happ. clear Happ.
  assert (List.filter (awaits 1)
            (waiting (execution env config home context []).1) =
          [(1, {| task_promise := 0;
                  task_rest := setupLanguageServer_rest context |})]
          ∧ next_promise (execution env config home context []).1 = 2)
    as [Hw0 Hn0].
  { unfold execution.
    pose proof (activate_world context (startup env config home)) as H.
    destruct (exec (activate context) (startup env config home)) as [[s w1] t1].
    destruct H as (_ & _ & _ & Hwait & Hn). cbn in *. by rewrite Hwait. }
  destruct (execution env config home context []) as [wa ta]. cbn [fst] in *.
  pose proof (turns_keep_activated context ts0 wa Hact) as H0.
  destruct (turns ts0 wa) as [w0 t0]. destruct H0 as [(Hact0 & _ & _) Hf0].
  specialize (Hf0 1 ltac:(lia) Hts0). rewrite Hw0 in Hf0.
  change (turns ([PromiseSettled 1 (Fulfilled v)] ++ ts) w0)
    with (let '(w1, t1) := turn (PromiseSettled 1 (Fulfilled v)) w0 in
          let '(w2, t2) := turns ts w1 in (w2, t1 ++ t2)).
  pose proof (turn_keeps_activated context (PromiseSettled 1 (Fulfilled v)) w0 Hact0)
    as H1.
  assert (handlers_registered (turn (PromiseSettled 1 (Fulfilled v)) w0).1)
    as Hreg.
  { unfold turn. rewrite Hf0.
    unfold handlers_registered, registered_handlers. cbn.
    repeat constructor.
    - by rewrite lookup_insert_ne, lookup_insert_ne, lookup_insert_eq.
    - by rewrite lookup_insert_ne, lookup_insert_eq.
    - by rewrite lookup_insert_eq. }
  destruct (turn (PromiseSettled 1 (Fulfilled v)) w0) as [w1 t1].
  destruct H1 as [(Hact1 & _ & _) _].
  pose proof (turns_keep_activated context ts w1 Hact1) as H2.
  destruct (turns ts w1) as [w2 t2]. destruct H2 as [(_ & _ & Hh2) _]. cbn in *.
  by apply Hh2.
Qed.

(** ** The request handlers *)

(** A handler logs, calls its function of [../utils] on [event.uri] and
    awaits the promise it got; whatever way that promise settles, the
    promise of the handler settles the same way, in whatever world this
    happens, and nothing else is done. *)
Lemma handler_body_relays (h : RequestHandler) (event : FetchEvent) (w : World) :
  ∃ message k,
    exec (handler_body h event) w =
      (Suspended (next_promise w) k, set_next_promise (S (next_promise w)) w,
       [Call (Console_info message (uri event)) ();
        Call (handler_fetches h (uri event)) (next_promise w)]) ∧
    ∀ o q w2,
      resume o {| task_promise := q; task_rest := k |} w2 = (w2, [Settled q o]).
Proof.
  destruct h; cbn; do 2 eexists; (split; [reflexivity|]); by intros [v|r] q w2.
Qed.

(** A request for a method with a handler, at any point after
    [activate]: the turn of the request is the log line and the call of
    the handler's function, which returns the promise [answer]; turns that
    do not settle [answer] follow; the turn in which [answer] settles is
    the handler's own promise settling the same way, and nothing else. *)
Lemma request_relayed (context : ExtensionContext) (w : World)
    (method : string) (h : RequestHandler) (event : FetchEvent)
    (ts' : list Turn) (o : Outcome) :
  activated_by context w →
  request_handlers w !! method = Some h →
  forallb (λ t, negb (settles (S (next_promise w)) t)) ts' = true →
  let '(w1, t1) := turn (RequestReceived method event) w in
  let '(w2, _) := turns ts' w1 in
  let '(_, t3) := turn (PromiseSettled (S (next_promise w)) o) w2 in
  (∃ message,
     t1 = [Call (Console_info message (uri event)) ();
           Call (handler_fetches h (uri event)) (S (next_promise w))]) ∧
  t3 = [Settled (next_promise w) o].
Proof.
  intros Hact Hh Hts.
  pose proof (turn_keeps_activated context (RequestReceived method event) w Hact)
    as Hturn.
  pose proof Hact as (_ & _ & Hparked).
  pose proof (well_parked_fresh w (S (next_promise w)) Hparked ltac:(lia))
    as Hfresh.
  unfold turn at 1 in Hturn. unfold turn at 1. rewrite Hh in *.
  assert (∃ message,
    call_async (handler_body h event) w =
      (set_waiting
         (waiting w ++ [(S (next_promise w),
                         {| task_promise := next_promise w; task_rest := Ret |})])
         (set_next_promise (S (S (next_promise w)))
            (set_next_promise (S (next_promise w)) w)),
       [Call (Console_info message (uri event)) ();
        Call (handler_fetches h (uri event)) (S (next_promise w))]))
    as [message Hcall] by (destruct h; by eexists).
  rewrite Hcall in *. destruct Hturn as [(Hact1 & _) _].
  set (w1 := set_waiting _ _) in *.
  pose proof (turns_keep_activated context ts' w1 Hact1) as Hturns.
  destruct (turns ts' w1) as [w2 t2]. destruct Hturns as [_ Hfilter].
  specialize (Hfilter (S (next_promise w)) ltac:(cbn; lia) Hts).
  subst w1. cbn [waiting set_waiting] in Hfilter.
  rewrite List.filter_app, Hfresh in Hfilter. cbn in Hfilter.
  rewrite Nat.eqb_refl in Hfilter.
  unfold turn. rewrite Hfilter.
  destruct o; cbn; (split; [by eexists|done]).
Qed.

(** C1. In every execution ([activate] in a fresh host, then any turns
    [ts]) in which the request handlers are registered, a request for
    [malloy/fetchFile], [malloy/fetchBinaryFile] or [malloy/fetchCellData]
    with parameters [event] makes the handler call [fetchFile],
    [fetchBinaryFile] or [fetchCellData] respectively on [event.uri];
    that call returns the promise [answer], and, whatever turns [ts']
    come before [answer] settles, the turn in which it settles with the
    outcome [o] consists of the handler's own promise settling with [o]:
    the same value, or the same rejection. *)
Theorem fetch_requests_relayed
    (env : gmap string string) (config : string → gmap string JsValue)
    (home : string) (context : ExtensionContext) (ts : list Turn)
    (event : FetchEvent) (ts' : list Turn) (o : Outcome) :
  let w := (execution env config home context ts).1 in
  let answer := S (next_promise w) in
  handlers_registered w →
  forallb (λ t, negb (settles answer t)) ts' = true →
  Forall (λ '(method, fetch),
    let '(w1, t1) := turn (RequestReceived method event) w in
    let '(w2, _) := turns ts' w1 in
    let '(_, t3) := turn (PromiseSettled answer o) w2 in
    (∃ message,
       t1 = [Call (Console_info message (uri event)) ();
             Call (fetch (uri event)) answer]) ∧
    t3 = [Settled (next_promise w) o]) fetch_requests.
Proof.
  intros w answer Hreg Hts.
  pose proof (executions_stay_activated env config home context ts) as Hact.
  fold w in Hact.
  unfold handlers_registered, registered_handlers in Hreg.
  apply Forall_cons in Hreg as [H1 Hreg].
  apply Forall_cons in Hreg as [H2 Hreg].
  apply Forall_cons in Hreg as [H3 _].
  unfold fetch_requests.
  constructor; [|constructor; [|constructor; [|constructor]]].
  - exact (request_relayed context w _ _ event ts' o Hact H1 Hts).
  - exact (request_relayed context w _ _ event ts' o Hact H2 Hts).
  - exact (request_relayed context w _ _ event ts' o Hact H3 Hts).
Qed.

Lemma fetch_requests_relayed_witness :
  let w := (execution ∅ example_settings "/home/user" example_context
              [PromiseSettled 1 (Fulfilled VUndefined)]).1 in
  let ts' := [ConfigurationChanged example_settings editor_changed] in
  Forall (λ '(method, fetch),
    let '(w1, t1) := turn (RequestReceived method example_request) w in
    let '(w2, _) := turns ts' w1 in
    let '(_, t3) := turn (PromiseSettled (S (next_promise w)) example_answer) w2 in
    (∃ message,
       t1 = [Call (Console_info message (uri example_request)) ();
             Call (fetch (uri example_request)) (S (next_promise w))]) ∧
    t3 = [Settled (next_promise w) example_answer]) fetch_requests.
Proof.
  apply (fetch_requests_relayed ∅ example_settings "/home/user" example_context
           [PromiseSettled 1 (Fulfilled VUndefined)] example_request
           [ConfigurationChanged example_settings editor_changed] example_answer).
  - constructor; [vm_compute; reflexivity|].
    constructor; [vm_compute; reflexivity|].
    constructor; [vm_compute; reflexivity|constructor].
  - vm_compute. reflexivity.
Defined.

(** ** The configuration listener *)

(** For a change that affects [malloy] the listener calls
    [onConfigurationUpdated] and parks on the promise it returns; nothing
    else has happened then. *)
Lemma listener_parks tree e w :
  affectsConfiguration e "malloy" = true →
  call_async (listener_body (activate_listener tree) e) w =
    (set_waiting
       (waiting w ++ [(S (next_promise w),
                       {| task_promise := next_promise w;
                          task_rest := listener_rest tree e |})])
       (set_next_promise (S (S (next_promise w)))
          (set_next_promise (S (next_promise w)) w)),
     [Call (OnConfigurationUpdated connectionManager) (S (next_promise w))]).
Proof.
  intros Hm. unfold call_async, listener_rest. cbn. rewrite Hm. reflexivity.
Qed.

Lemma cloudshellEnv_calls_settings (w w' : World) :
  settings w' = settings w → cloudshellEnv_calls w' = cloudshellEnv_calls w.
Proof.
  intros H. unfold cloudshellEnv_calls. cbn. rewrite H.
  by setting_cases (settings w "cloudcode").
Qed.

(** The rest of the listener, in a world where a worker is registered:
    the refresh, then the message with the [malloy] configuration of that
    world, then the part for [cloudshell]. *)
Lemma exec_listener_rest tree e v w worker :
  getWorker w = Some worker →
  let '(s, _, t) := exec (listener_rest tree e v) w in
  s = Returned VUndefined ∧
  t = Call (Refresh tree) () :: config_sent worker w
      ++ (if affectsConfiguration e "cloudshell"
          then cloudshellEnv_calls w else []).
Proof.
  intros Hw. unfold listener_rest, cloudshellEnv_calls. cbn. rewrite Hw. cbn.
  destruct (affectsConfiguration e "cloudshell"); cbn; [|done].
  setting_cases (settings w "cloudcode"); split; exact eq_refl.
Qed.

Lemma malloy_change_relayed (context : ExtensionContext) (w : World)
    (new_settings : string → gmap string JsValue) (e : ConfigurationChangeEvent)
    (ts' : list Turn) (v : JsValue) :
  activated_by context w →
  affectsConfiguration e "malloy" = true →
  forallb (λ t, negb (settles (S (next_promise w)) t)) ts' = true →
  let '(w1, t1) := turn (ConfigurationChanged new_settings e) w in
  let '(w2, _) := turns ts' w1 in
  let '(_, t3) := turn (PromiseSettled (S (next_promise w)) (Fulfilled v)) w2 in
  t1 = [Call (OnConfigurationUpdated connectionManager) (S (next_promise w))] ∧
  t3 = [Call (Refresh (connectionsTree_of context)) ();
        Call GetWorker (Some (worker_of context));
        Call (GetConfiguration "malloy") (settings w2 "malloy");
        Call (Worker_send (worker_of context)
                (Msg_config (settings w2 "malloy"))) ()]
       ++ (if affectsConfiguration e "cloudshell"
           then cloudshellEnv_calls w2 else [])
       ++ [Settled (next_promise w) (Fulfilled VUndefined)].
Proof.
  intros Hact Hm Hts.
  pose proof (turn_keeps_activated context (ConfigurationChanged new_settings e)
                w Hact) as Hturn.
  pose proof Hact as (Hl & _ & Hparked).
  pose proof (well_parked_fresh w (S (next_promise w)) Hparked ltac:(lia))
    as Hfresh.
  unfold turn at 1 in Hturn. unfold turn at 1.
  cbn [configuration_listeners set_settings] in *. rewrite Hl in *.
  cbn [notify] in *.
  pose proof (listener_parks (connectionsTree_of context) e
                (set_settings new_settings w) Hm) as Hcall.
  cbn [next_promise waiting set_settings] in Hcall. rewrite Hcall in *.
  destruct Hturn as [(Hact1 & _) _].
  set (w1 := set_waiting _ _) in *.
  pose proof (turns_keep_activated context ts' w1 Hact1) as Hturns.
  destruct (turns ts' w1) as [w2 t2]. destruct Hturns as [(Hact2 & _) Hfilter].
  specialize (Hfilter (S (next_promise w)) ltac:(cbn; lia) Hts).
  subst w1. cbn [waiting set_waiting] in Hfilter.
  rewrite List.filter_app, Hfresh in Hfilter. cbn in Hfilter.
  rewrite Nat.eqb_refl in Hfilter.
  unfold turn. rewrite Hfilter.
  destruct Hact2 as (_ & Hw2 & _).
  set (others := List.filter _ (waiting w2)).
  pose proof (exec_listener_rest (connectionsTree_of context) e v
                (set_waiting others w2) (worker_of context) Hw2) as Hrest.
  pose proof (cloudshellEnv_calls_settings w2 (set_waiting others w2) eq_refl)
    as Hcalls.
  cbn [resume_all fmap list_fmap snd resume task_rest task_promise].
  destruct (exec (listener_rest _ e v) (set_waiting others w2)) as [[s w3] t3].
  destruct Hrest as [-> ->]. cbn. rewrite Hcalls.
  split; [done|]. by rewrite app_nil_r.
Qed.

(** C2. In every execution ([activate] in a fresh host, then any turns
    [ts]), a configuration change that affects [malloy] makes the
    listener [activate] registered call
    [connectionManager.onConfigurationUpdated()] and await its promise
    [updated], and nothing more in that turn.  Whatever turns [ts'] come
    before [updated] settles, the turn in which it is fulfilled is, in
    this order: the refresh of the connections tree, the message
    [{type: 'config', config}] to the worker with the [malloy]
    configuration current at that moment, the part for [cloudshell] if
    the change affects it, and the listener's own promise being
    fulfilled. *)
Theorem malloy_configuration_change_order
    (env : gmap string string) (config : string → gmap string JsValue)
    (home : string) (context : ExtensionContext) (ts : list Turn)
    (new_settings : string → gmap string JsValue)
    (e : ConfigurationChangeEvent) (ts' : list Turn) (v : JsValue) :
  let w := (execution env config home context ts).1 in
  let updated := S (next_promise w) in
  affectsConfiguration e "malloy" = true →
  forallb (λ t, negb (settles updated t)) ts' = true →
  let '(w1, t1) := turn (ConfigurationChanged new_settings e) w in
  let '(w2, _) := turns ts' w1 in
  let '(_, t3) := turn (PromiseSettled updated (Fulfilled v)) w2 in
  t1 = [Call (OnConfigurationUpdated connectionManager) updated] ∧
  t3 = [Call (Refresh (connectionsTree_of context)) ();
        Call GetWorker (Some (worker_of context));
        Call (GetConfiguration "malloy") (settings w2 "malloy");
        Call (Worker_send (worker_of context)
                (Msg_config (settings w2 "malloy"))) ()]
       ++ (if affectsConfiguration e "cloudshell"
           then cloudshellEnv_calls w2 else [])
       ++ [Settled (next_promise w) (Fulfilled VUndefined)].
Proof.
  intros w updated Hm Hts.
  apply (malloy_change_relayed context w new_settings e ts' v); [|done..].
  apply executions_stay_activated.
Qed.

Lemma malloy_configuration_change_order_witness :
  let w := (execution ∅ example_settings "/home/user" example_context []).1 in
  let ts' := [RequestReceived "malloy/fetchFile" example_request] in
  let '(w1, t1) := turn (ConfigurationChanged example_settings malloy_changed) w in
  let '(w2, _) := turns ts' w1 in
  let '(_, t3) :=
    turn (PromiseSettled (S (next_promise w)) (Fulfilled VUndefined)) w2 in
  t1 = [Call (OnConfigurationUpdated connectionManager) (S (next_promise w))] ∧
  t3 = [Call (Refresh (connectionsTree_of example_context)) ();
        Call GetWorker (Some (worker_of example_context));
        Call (GetConfiguration "malloy") (settings w2 "malloy");
        Call (Worker_send (worker_of example_context)
                (Msg_config (settings w2 "malloy"))) ()]
       ++ (if affectsConfiguration malloy_changed "cloudshell"
           then cloudshellEnv_calls w2 else [])
       ++ [Settled (next_promise w) (Fulfilled VUndefined)].
Proof.
  apply (malloy_configuration_change_order ∅ example_settings "/home/user"
           example_context [] example_settings malloy_changed
           [RequestReceived "malloy/fetchFile" example_request] VUndefined).
  - reflexivity.
  - vm_compute. reflexivity.
Defined.

(** ** What later turns leave alone

    A part [f] of the world that the code run in a turn does not write
    stays as it is across any number of turns, as long as no parked
    function that writes it is resumed. *)

Section Frame.
Context {A : Type} (f : World → A).
Context (exempt : Promise → bool) (quiet : Turn → bool).
Hypothesis f_independent : loop_independent f.
Hypothesis listener_keeps :
  ∀ l new_settings e,
    quiet (ConfigurationChanged new_settings e) = true →
    body_keeps f (listener_body l e).
Hypothesis handler_keeps : ∀ h event, body_keeps f (handler_body h event).
Hypothesis deactivate_keeps : quiet Deactivate = true → body_keeps f deactivate.

Lemma call_async_keeps context body w :
  awaits_once body → body_keeps f body →
  activated_by context w → parked_keep f exempt w →
  f (call_async body w).1 = f w ∧ parked_keep f exempt (call_async body w).1.
Proof.
  destruct f_independent as (Hwaiting & Hnext & _).
  intros Honce Hkeeps Hact Hparked. unfold call_async. cbn.
  specialize (Honce (set_next_promise (S (next_promise w)) w)).
  specialize (Hkeeps (set_next_promise (S (next_promise w)) w)).
  destruct (exec body _) as [[s w1] t1].
  destruct Honce as ((_ & _ & Hwait1 & _) & _ & _).
  destruct Hkeeps as [Hf Hk]. rewrite Hnext in Hf. cbn in Hwait1.
  unfold parked_keep in *.
  destruct s as [r|r|p k]; cbn; [by rewrite Hwait1..|].
  rewrite Hwaiting. split; [done|].
  rewrite Hwait1. apply Forall_app. split; [done|].
  constructor; [by right|constructor].
Qed.

Lemma resume_keeps o t w :
  runs_to_the_end (task_rest t) →
  (match o with Fulfilled _ => keeps f (task_rest t) | Rejected _ => True end) →
  f (resume o t w).1 = f w ∧ waiting (resume o t w).1 = waiting w.
Proof.
  intros Hend Hk. destruct o as [v|r]; cbn; [|done].
  specialize (Hend v w). specialize (Hk v w).
  destruct (exec (task_rest t v) w) as [[s w1] t1].
  destruct Hend as ((_ & _ & Hwait & _) & _ & Hs). cbn in Hk.
  by destruct s.
Qed.

Lemma resume_all_keeps o ts w :
  Forall (λ t, runs_to_the_end (task_rest t) ∧
               match o with
               | Fulfilled _ => keeps f (task_rest t)
               | Rejected _ => True
               end) ts →
  f (resume_all o ts w).1 = f w ∧ waiting (resume_all o ts w).1 = waiting w.
Proof.
  intros Hts. revert w. induction Hts as [|t ts [Hend Hk] _ IH]; intros w; cbn.
  - done.
  - destruct (resume_keeps o t w Hend Hk) as [H1 H2].
    destruct (resume o t w) as [w1 t1]. cbn in *.
    destruct (IH w1) as [H3 H4].
    destruct (resume_all o ts w1) as [w2 t2]. cbn in *.
    split; congruence.
Qed.

Lemma turn_keeps context t w :
  activated_by context w → parked_keep f exempt w →
  quiet t && negb (fulfils exempt t) = true →
  f (turn t w).1 = f w ∧ parked_keep f exempt (turn t w).1.
Proof.
  destruct f_independent as (Hwaiting & Hnext & Hsettings).
  intros Hact Hparked Ht. apply andb_prop in Ht as [Hquiet Ht].
  apply negb_true_iff in Ht.
  destruct t as [new_settings e|method params|p o|].
  - pose proof Hact as (Hl & Hw & Hp).
    unfold turn. cbn [configuration_listeners set_settings]. rewrite Hl.
    cbn [notify].
    assert (activated_by context (set_settings new_settings w)) as Hact' by done.
    assert (parked_keep f exempt (set_settings new_settings w)) as Hparked'
      by done.
    pose proof (call_async_keeps context
                  (listener_body (activate_listener (connectionsTree_of context)) e)
                  (set_settings new_settings w)
                  (listener_awaits_once _ e)
                  (listener_keeps _ new_settings e Hquiet) Hact' Hparked')
      as Hcall.
    destruct (call_async _ (set_settings new_settings w)) as [w1 t1].
    cbn in *. by rewrite Hsettings in Hcall.
  - unfold turn. destruct (request_handlers w !! method) as [h|]; [|done].
    apply (call_async_keeps context); auto using handler_awaits_once.
  - pose proof Hact as (_ & _ & Hp).
    unfold turn.
    set (woken := List.filter (awaits p) (waiting w)).
    set (others := List.filter (λ entry, negb (awaits p entry)) (waiting w)).
    assert (Forall (λ t, runs_to_the_end (task_rest t) ∧
               match o with
               | Fulfilled _ => keeps f (task_rest t)
               | Rejected _ => True
               end) (woken.*2)) as Hwoken.
    { apply Forall_fmap. subst woken.
      unfold well_parked, parked_keep in *.
      induction (waiting w) as [|[q t] ws IH]; [constructor|].
      apply Forall_cons in Hp as [[_ Hend] Hp].
      apply Forall_cons in Hparked as [Hk Hparked].
      simpl. unfold awaits at 1. simpl.
      destruct (Nat.eqb_spec q p) as [->|_]; [|by apply IH].
      constructor; [|by apply IH]. split; [done|].
      destruct o as [v|r]; [|done]. cbn in Ht, Hk.
      destruct Hk as [Hk|Hk]; [congruence|done]. }
    destruct (resume_all_keeps o (woken.*2) (set_waiting others w) Hwoken)
      as [H1 H2].
    destruct (resume_all o _ (set_waiting others w)) as [w1 t1]. cbn in *.
    rewrite Hwaiting in H1. split; [done|].
    unfold parked_keep. rewrite H2. by apply Forall_List_filter.
  - unfold turn. apply (call_async_keeps context); auto using deactivate_awaits_once.
Qed.

Lemma turns_keep context ts w :
  activated_by context w → parked_keep f exempt w →
  forallb (λ t, quiet t && negb (fulfils exempt t)) ts = true →
  f (turns ts w).1 = f w ∧ parked_keep f exempt (turns ts w).1.
Proof.
  revert w. induction ts as [|t ts IH]; intros w Hact Hparked Hts; [done|].
  cbn -[turn] in *. apply andb_prop in Hts as [Ht Hts].
  destruct (turn_keeps context t w Hact Hparked Ht) as [H1 H2].
  pose proof (turn_keeps_activated context t w Hact) as Hturn.
  destruct (turn t w) as [w1 t1]. destruct Hturn as [(Hact1 & _) _]. cbn in *.
  specialize (IH w1 Hact1 H2 Hts).
  destruct (turns ts w1) as [w2 t2]. cbn in *.
  destruct IH as [IH1 IH2]. split; [congruence|done].
Qed.

(** Once the exempt promise has settled, no function is parked on it. *)
Lemma settled_keeps context p o w :
  activated_by context w → parked_keep f exempt w →
  (∀ q, exempt q = true → q = p) →
  parked_keep f no_promise (turn (PromiseSettled p o) w).1.
Proof.
  intros (_ & _ & Hp) Hparked Hexempt. unfold turn.
  set (woken := List.filter (awaits p) (waiting w)).
  set (others := List.filter (λ entry, negb (awaits p entry)) (waiting w)).
  assert (Forall (λ t, runs_to_the_end (task_rest t)) (woken.*2)) as Hwoken.
  { apply Forall_fmap. apply Forall_List_filter.
    eapply Forall_impl; [exact Hp|]. by intros entry [_ H]. }
  pose proof (resume_all_ok o (woken.*2) (set_waiting others w) Hwoken) as Hres.
  destruct (resume_all o _ (set_waiting others w)) as [w1 t1].
  destruct Hres as ((_ & _ & Hwait1 & _) & _). cbn in Hwait1 |- *.
  unfold parked_keep in *. rewrite Hwait1. subst others.
  clear Hp Hwoken woken Hwait1.
  induction (waiting w) as [|[q t] ws IH]; [constructor|].
  apply Forall_cons in Hparked as [Hk Hparked].
  simpl. unfold awaits at 1. simpl.
  destruct (Nat.eqb_spec q p) as [->|Hq]; simpl; [by apply IH|].
  constructor; [|by apply IH]. right.
  destruct Hk as [Hk|Hk]; [|done]. by apply Hexempt in Hk.
Qed.
End Frame.

(** The parts of the world only [activate] and [setupLanguageServer]
    write: the code run in later turns creates promises and sets
    environment variables, and nothing else. *)
Section Static.
Context {A : Type} (f : World → A).
Hypothesis f_independent : loop_independent f.
Hypothesis f_env : ∀ x w, f (set_process_env x w) = f w.

Lemma listener_keeps_static l e : body_keeps f (listener_body l e).
Proof.
  destruct f_independent as (_ & Hn & _).
  intros w. destruct l as [tree]. cbn.
  destruct (affectsConfiguration e "malloy"),
           (affectsConfiguration e "cloudshell"); cbn.
  - split; [by rewrite Hn|]. intros v w2. cbn.
    destruct (getWorker w2); cbn; [|done].
    setting_cases (settings w2 "cloudcode"); cbn; by rewrite ?f_env.
  - split; [by rewrite Hn|]. intros v w2. cbn. by destruct (getWorker w2).
  - setting_cases (settings w "cloudcode"); cbn; by rewrite ?f_env.
  - done.
Qed.

Lemma handler_keeps_static h event : body_keeps f (handler_body h event).
Proof.
  destruct f_independent as (_ & Hn & _).
  intros w. destruct h; cbn; by rewrite Hn.
Qed.

Lemma deactivate_keeps_static : body_keeps f deactivate.
Proof.
  destruct f_independent as (_ & Hn & _).
  intros w. cbn. destruct (client w) as [c|] eqn:Hc; cbn.
  - split; [by rewrite Hn|]. intros v w2. cbn. by destruct (getWorker w2).
  - by destruct (getWorker w).
Qed.

(** Such a part is changed by no turn, unless a parked function that
    writes it is resumed. *)
Lemma turns_keep_static context exempt ts w :
  activated_by context w → parked_keep f exempt w →
  forallb (λ t, negb (fulfils exempt t)) ts = true →
  f (turns ts w).1 = f w ∧ parked_keep f exempt (turns ts w).1.
Proof.
  apply (turns_keep f exempt (λ _, true));
    auto using listener_keeps_static, handler_keeps_static,
               deactivate_keeps_static.
Qed.
End Static.

Lemma no_promise_fulfilled (ts : list Turn) :
  forallb (λ t, negb (fulfils no_promise t)) ts = true.
Proof.
  induction ts as [|t ts IH]; [done|]. cbn. rewrite IH.
  by destruct t as [| |? []|].
Qed.

Lemma activate_parks_one env config home context :
  let w := (execution env config home context []).1 in
  waiting w = [(1, {| task_promise := 0;
                      task_rest := setupLanguageServer_rest context |})] ∧
  next_promise w = 2 ∧
  client w = Some (client_of context) ∧
  request_handlers w = ∅.
Proof.
  unfold execution. cbn. setting_cases (config "cloudcode").
  all: repeat split; exact eq_refl.
Qed.

Lemma execution_snoc env config home context ts :
  (execution env config home context ts).1 =
  (turns ts (execution env config home context []).1).1.
Proof.
  unfold execution. destruct (exec (activate context) _) as [[s w1] t1].
  cbn. by destruct (turns ts w1).
Qed.

(** After [activate], [setupLanguageServer] is the one parked function;
    it writes the request handlers, and nothing else of the world. *)
Lemma execution_keeps_static {A : Type} (f : World → A)
    env config home context ts :
  loop_independent f →
  (∀ x w, f (set_process_env x w) = f w) →
  (∀ x w, f (set_request_handlers x w) = f w) →
  f (execution env config home context ts).1 =
  f (execution env config home context []).1.
Proof.
  intros Hf Henv Hhandlers. rewrite execution_snoc.
  destruct (activate_parks_one env config home context) as (Hw & _).
  eapply (turns_keep_static f Hf Henv context no_promise).
  - apply activate_activates.
  - unfold parked_keep. rewrite Hw. constructor; [|constructor]. right.
    intros v w. cbn. by rewrite !Hhandlers.
  - apply no_promise_fulfilled.
Qed.

Lemma client_kept env config home context ts :
  client (execution env config home context ts).1 = Some (client_of context).
Proof.
  destruct (activate_parks_one env config home context) as (_ & _ & Hc & _).
  rewrite <- Hc. apply execution_keeps_static; [by repeat split|done..].
Qed.

(** ** What [activate] established, in every execution *)

(** X1. In every execution ([activate] in a fresh host, then any turns:
    configuration changes, requests, promises settling either way, calls
    of [deactivate]) the configuration listener this file has registered
    is the one of [activate] and no other, [getWorker()] gives the worker
    [setupWorker] registered, and the module variable [client] holds the
    client [setupLanguageServer] created: nothing in the file registers a
    second listener, replaces the worker, or reassigns or clears the
    client, not even [deactivate]. *)
Theorem activation_is_stable
    (env : gmap string string) (config : string → gmap string JsValue)
    (home : string) (context : ExtensionContext) (ts : list Turn) :
  let w := (execution env config home context ts).1 in
  configuration_listeners w = [activate_listener (connectionsTree_of context)] ∧
  getWorker w = Some (worker_of context) ∧
  client w = Some (client_of context).
Proof.
  intros w.
  destruct (executions_stay_activated env config home context ts)
    as (Hl & Hw & _).
  split; [done|]. split; [done|]. apply client_kept.
Qed.

(** ** The request handlers in an execution *)

Lemma ready_parked env config home context ts0 :
  forallb (λ t, negb (settles 1 t)) ts0 = true →
  let w0 := (execution env config home context ts0).1 in
  activated_by context w0 ∧
  request_handlers w0 = ∅ ∧
  parked_keep request_handlers is_ready_promise w0 ∧
  List.filter (awaits 1) (waiting w0) =
    [(1, {| task_promise := 0; task_rest := setupLanguageServer_rest context |})].
Proof.
  intros Hts0 w0. subst w0.
  split; [apply executions_stay_activated|].
  rewrite execution_snoc.
  destruct (activate_parks_one env config home context) as (Hw & Hn & _ & Hh).
  pose proof (activate_activates env config home context) as Hact.
  set (wa := (execution env config home context []).1) in *.
  assert (parked_keep request_handlers is_ready_promise wa) as Hparked.
  { unfold parked_keep. rewrite Hw. constructor; [|constructor]. by left. }
  assert (forallb (λ t, negb (fulfils is_ready_promise t)) ts0 = true) as Hts0'.
  { clear -Hts0. induction ts0 as [|t ts0 IH]; [done|].
    cbn in *. apply andb_prop in Hts0 as [Ht Hts0]. rewrite (IH Hts0).
    destruct t as [| |p [v|r]|]; try done. cbn in *.
    unfold is_ready_promise. by rewrite Ht. }
  destruct (turns_keep_static request_handlers ltac:(by repeat split) ltac:(done)
              context is_ready_promise ts0 wa Hact Hparked Hts0')
    as [H1 H2].
  split; [congruence|]. split; [done|].
  pose proof (turns_keep_activated context ts0 wa Hact) as Hturns.
  destruct (turns ts0 wa) as [w0 t0]. destruct Hturns as [_ Hfilter].
  cbn [fst]. rewrite Hfilter; [|lia|done]. by rewrite Hw.
Qed.

Lemma handlers_kept_after_settled env config home context ts0 o ts :
  forallb (λ t, negb (settles 1 t)) ts0 = true →
  request_handlers
    (execution env config home context (ts0 ++ [PromiseSettled 1 o] ++ ts)).1 =
  request_handlers
    (turn (PromiseSettled 1 o) (execution env config home context ts0).1).1.
Proof.
  intros Hts0.
  destruct (ready_parked env config home context ts0 Hts0)
    as (Hact0 & _ & Hparked0 & _).
  rewrite execution_app.
  destruct (execution env config home context ts0) as [w0 t0]. cbn [fst] in *.
  change (turns ([PromiseSettled 1 o] ++ ts) w0)
    with (let '(w1, t1) := turn (PromiseSettled 1 o) w0 in
          let '(w2, t2) := turns ts w1 in (w2, t1 ++ t2)).
  pose proof (settled_keeps request_handlers is_ready_promise context 1 o w0
                Hact0 Hparked0) as Hparked1.
  pose proof (turn_keeps_activated context (PromiseSettled 1 o) w0 Hact0) as Hturn.
  destruct (turn (PromiseSettled 1 o) w0) as [w1 t1]. cbn [fst] in *.
  destruct Hturn as [(Hact1 & _) _].
  assert (parked_keep request_handlers no_promise w1) as Hp1.
  { apply Hparked1. intros q Hq. by apply Nat.eqb_eq in Hq. }
  destruct (turns_keep_static request_handlers ltac:(by repeat split) ltac:(done)
              context no_promise ts w1 Hact1 Hp1 (no_promise_fulfilled ts))
    as [H1 _].
  by destruct (turns ts w1) as [w2 t2].
Qed.

(** X2. In every execution in which the promise of [client.onReady()]
    (the promise [1] of the execution) has not been fulfilled, no request
    handler is registered, whatever else has happened; a request from the
    language server for any method then makes no call of the file's code
    and changes nothing. *)
Theorem no_handler_before_ready
    (env : gmap string string) (config : string → gmap string JsValue)
    (home : string) (context : ExtensionContext) (ts : list Turn)
    (method : string) (event : FetchEvent) :
  let w := (execution env config home context ts).1 in
  forallb (λ t, negb (fulfils is_ready_promise t)) ts = true →
  request_handlers w = ∅ ∧
  turn (RequestReceived method event) w = (w, []).
Proof.
  intros w Hts.
  assert (request_handlers w = ∅) as Hh.
  { subst w. rewrite execution_snoc.
    destruct (activate_parks_one env config home context) as (Hw & _ & _ & Hh).
    rewrite <- Hh.
    eapply (turns_keep_static request_handlers ltac:(by repeat split) ltac:(done)
              context is_ready_promise); [| |done].
    - apply activate_activates.
    - unfold parked_keep. rewrite Hw. constructor; [|constructor]. by left. }
  split; [done|]. unfold turn. by rewrite Hh, lookup_empty.
Qed.

Lemma no_handler_before_ready_witness :
  let w := (execution ∅ example_settings "/home/user" example_context
              [ConfigurationChanged example_settings malloy_changed;
               PromiseSettled 3 (Fulfilled VUndefined);
               PromiseSettled 1 (Rejected (VString "server crashed"));
               Deactivate]).1 in
  request_handlers w = ∅ ∧
  turn (RequestReceived "malloy/fetchFile" example_request) w = (w, []).
Proof.
  apply (no_handler_before_ready ∅ example_settings "/home/user" example_context
           [ConfigurationChanged example_settings malloy_changed;
            PromiseSettled 3 (Fulfilled VUndefined);
            PromiseSettled 1 (Rejected (VString "server crashed"));
            Deactivate]
           "malloy/fetchFile" example_request).
  reflexivity.
Defined.

(** X3. In every execution, whatever turns [ts0] come before the promise
    of [client.onReady()] settles: the turn in which it is fulfilled
    consists of the three [onRequest] registrations and the promise of
    [setupLanguageServer] being fulfilled; from then on, whatever turns
    [ts] follow, the handlers registered are exactly those three, so a
    request for any other method is not answered by the file's code. *)
Theorem ready_registers_exactly_three_handlers
    (env : gmap string string) (config : string → gmap string JsValue)
    (home : string) (context : ExtensionContext) (ts0 ts : list Turn)
    (v : JsValue) :
  forallb (λ t, negb (settles 1 t)) ts0 = true →
  let w0 := (execution env config home context ts0).1 in
  let w := (execution env config home context
              (ts0 ++ [PromiseSettled 1 (Fulfilled v)] ++ ts)).1 in
  (turn (PromiseSettled 1 (Fulfilled v)) w0).2 =
    request_handler_calls context ++ [Settled 0 (Fulfilled VUndefined)] ∧
  request_handlers w = list_to_map registered_handlers ∧
  ∀ method event,
    method ∉ registered_handlers.*1 →
    turn (RequestReceived method event) w = (w, []).
Proof.
  intros Hts0 w0 w.
  assert ((turn (PromiseSettled 1 (Fulfilled v)) w0).2 =
            request_handler_calls context ++ [Settled 0 (Fulfilled VUndefined)] ∧
          request_handlers w = list_to_map registered_handlers) as [Ht Hh].
  { subst w. rewrite (handlers_kept_after_settled _ _ _ _ _ _ _ Hts0).
    destruct (ready_parked env config home context ts0 Hts0)
      as (_ & Hh0 & _ & Hfilter).
    fold w0 in Hh0, Hfilter |- *.
    unfold turn. rewrite Hfilter. cbn. by rewrite Hh0. }
  split; [done|]. split; [done|].
  intros method event Hmethod. unfold turn. rewrite Hh.
  cbn in Hmethod. rewrite !not_elem_of_cons in Hmethod.
  destruct Hmethod as (? & ? & ? & _). cbn.
  by rewrite !lookup_insert_ne, lookup_empty.
Qed.

Lemma ready_registers_exactly_three_handlers_witness :
  let ts0 := [RequestReceived "malloy/fetchFile" example_request;
              ConfigurationChanged example_settings malloy_changed] in
  let ts := [PromiseSettled 1 (Fulfilled VUndefined); Deactivate] in
  let w0 := (execution ∅ example_settings "/home/user" example_context ts0).1 in
  let w := (execution ∅ example_settings "/home/user" example_context
              (ts0 ++ [PromiseSettled 1 (Fulfilled VUndefined)] ++ ts)).1 in
  (turn (PromiseSettled 1 (Fulfilled VUndefined)) w0).2 =
    request_handler_calls example_context ++ [Settled 0 (Fulfilled VUndefined)] ∧
  request_handlers w = list_to_map registered_handlers ∧
  ∀ method event,
    method ∉ registered_handlers.*1 →
    turn (RequestReceived method event) w = (w, []).
Proof.
  apply (ready_registers_exactly_three_handlers ∅ example_settings "/home/user"
           example_context
           [RequestReceived "malloy/fetchFile" example_request;
            ConfigurationChanged example_settings malloy_changed]
           [PromiseSettled 1 (Fulfilled VUndefined); Deactivate] VUndefined).
  reflexivity.
Defined.

(** X4. In every execution, if the promise of [client.onReady()] is
    rejected, [setupLanguageServer] ends there: the turn consists of its
    promise being rejected with the same reason, which nothing handles
    since [activate] dropped that promise; no request handler is
    registered in that turn or in any turn after it. *)
Theorem rejected_ready_registers_nothing
    (env : gmap string string) (config : string → gmap string JsValue)
    (home : string) (context : ExtensionContext) (ts0 ts : list Turn)
    (reason : JsValue) :
  forallb (λ t, negb (settles 1 t)) ts0 = true →
  let w0 := (execution env config home context ts0).1 in
  let w := (execution env config home context
              (ts0 ++ [PromiseSettled 1 (Rejected reason)] ++ ts)).1 in
  (turn (PromiseSettled 1 (Rejected reason)) w0).2 =
    [Settled 0 (Rejected reason)] ∧
  request_handlers w = ∅.
Proof.
  intros Hts0 w0 w.
  subst w. rewrite (handlers_kept_after_settled _ _ _ _ _ _ _ Hts0).
  destruct (ready_parked env config home context ts0 Hts0)
    as (_ & Hh0 & _ & Hfilter).
  fold w0 in Hh0, Hfilter |- *.
  unfold turn. rewrite Hfilter. cbn. by rewrite Hh0.
Qed.

Lemma rejected_ready_registers_nothing_witness :
  let ts0 := [Deactivate] in
  let ts := [PromiseSettled 1 (Fulfilled VUndefined)] in
  let reason := VString "server crashed" in
  let w0 := (execution ∅ example_settings "/home/user" example_context ts0).1 in
  let w := (execution ∅ example_settings "/home/user" example_context
              (ts0 ++ [PromiseSettled 1 (Rejected reason)] ++ ts)).1 in
  (turn (PromiseSettled 1 (Rejected reason)) w0).2 =
    [Settled 0 (Rejected reason)] ∧
  request_handlers w = ∅.
Proof.
  apply (rejected_ready_registers_nothing ∅ example_settings "/home/user"
           example_context [Deactivate] [PromiseSettled 1 (Fulfilled VUndefined)]
           (VString "server crashed")).
  reflexivity.
Defined.

(** ** Functions parked across turns *)

(** A function parked by a turn on the promise that turn created is the
    one function that goes on when the promise settles, whatever turns
    come in between. *)
Lemma parked_function_resumed (context : ExtensionContext) (t : Turn)
    (w : World) (k : JsValue → Prog JsValue) (ts' : list Turn) (o : Outcome) :
  activated_by context w →
  waiting (turn t w).1 =
    waiting w ++ [(S (next_promise w),
                   {| task_promise := next_promise w; task_rest := k |})] →
  forallb (λ t, negb (settles (S (next_promise w)) t)) ts' = true →
  let w2 := (turns ts' (turn t w).1).1 in
  activated_by context w2 ∧
  turn (PromiseSettled (S (next_promise w)) o) w2 =
    resume_all o [{| task_promise := next_promise w; task_rest := k |}]
      (set_waiting
         (List.filter (λ entry, negb (awaits (S (next_promise w)) entry))
            (waiting w2)) w2).
Proof.
  intros Hact Hwait Hts.
  pose proof (turn_keeps_activated context t w Hact) as Hturn.
  pose proof Hact as (_ & _ & Hparked).
  pose proof (well_parked_fresh w (S (next_promise w)) Hparked ltac:(lia))
    as Hfresh.
  destruct (turn t w) as [w1 t1]. destruct Hturn as [(Hact1 & _) _].
  cbn [fst] in *.
  assert (S (next_promise w) < next_promise w1)%nat as Hlt.
  { destruct Hact1 as (_ & _ & Hp1). unfold well_parked in Hp1.
    rewrite Hwait in Hp1. apply Forall_app in Hp1 as [_ Hp1].
    apply Forall_cons in Hp1 as [[Hp1 _] _]. exact Hp1. }
  pose proof (turns_keep_activated context ts' w1 Hact1) as Hturns.
  destruct (turns ts' w1) as [w2 t2]. destruct Hturns as [(Hact2 & _) Hfilter].
  specialize (Hfilter (S (next_promise w)) Hlt Hts).
  rewrite Hwait, List.filter_app, Hfresh in Hfilter. cbn in Hfilter.
  rewrite Nat.eqb_refl in Hfilter.
  split; [done|]. cbn [fst]. unfold turn. by rewrite Hfilter.
Qed.

(** ** [deactivate] in an execution *)

Lemma deactivate_parks (c : LanguageClient) (w : World) :
  client w = Some c →
  call_async deactivate w =
    (set_waiting
       (waiting w ++ [(S (next_promise w),
                       {| task_promise := next_promise w;
                          task_rest := deactivate_rest |})])
       (set_next_promise (S (S (next_promise w)))
          (set_next_promise (S (next_promise w)) w)),
     [Call Client_read (Some c); Call (Client_stop c) (S (next_promise w))]).
Proof.
  intros Hc. unfold call_async, deactivate_rest. cbn. rewrite Hc. reflexivity.
Qed.

Lemma exec_deactivate_rest (v : JsValue) (w : World) (worker : WorkerConnection) :
  getWorker w = Some worker →
  exec (deactivate_rest v) w =
    (Returned VUndefined, w,
     [Call GetWorker (Some worker); Call (Worker_send worker Msg_exit) ()]).
Proof. intros Hw. unfold deactivate_rest. cbn. by rewrite Hw. Qed.

(** X5. In every execution ([activate] in a fresh host, then any turns
    [ts]) a call of [deactivate] finds the client [activate] created,
    calls [client.stop()] and awaits its promise [stopped]; nothing is
    sent to the worker in that turn.  Whatever turns [ts'] come before
    [stopped] settles: if it is fulfilled, the turn in which it settles is
    the message [{type: 'exit'}] to the worker [activate] registered,
    then the promise of [deactivate] fulfilled; if it is rejected, the
    promise of [deactivate] is rejected with the same reason and no
    message is sent. *)
Theorem deactivate_stops_client_then_worker
    (env : gmap string string) (config : string → gmap string JsValue)
    (home : string) (context : ExtensionContext) (ts ts' : list Turn)
    (o : Outcome) :
  let w := (execution env config home context ts).1 in
  let stopped := S (next_promise w) in
  forallb (λ t, negb (settles stopped t)) ts' = true →
  let '(w1, t1) := turn Deactivate w in
  let '(w2, _) := turns ts' w1 in
  let '(_, t3) := turn (PromiseSettled stopped o) w2 in
  t1 = [Call Client_read (Some (client_of context));
        Call (Client_stop (client_of context)) stopped] ∧
  t3 = match o with
       | Fulfilled _ =>
           [Call GetWorker (Some (worker_of context));
            Call (Worker_send (worker_of context) Msg_exit) ();
            Settled (next_promise w) (Fulfilled VUndefined)]
       | Rejected reason => [Settled (next_promise w) (Rejected reason)]
       end.
Proof.
  intros w stopped Hts. subst stopped.
  pose proof (executions_stay_activated env config home context ts) as Hact.
  pose proof (client_kept env config home context ts) as Hc.
  fold w in Hact, Hc.
  pose proof (deactivate_parks _ w Hc) as Hcall.
  pose proof (parked_function_resumed context Deactivate w deactivate_rest ts' o
                Hact) as Hres.
  unfold turn at 1 2 in Hres. unfold turn at 1.
  rewrite Hcall in *. cbn [fst] in Hres.
  specialize (Hres eq_refl Hts).
  set (w1 := set_waiting _ _) in *.
  destruct (turns ts' w1) as [w2 t2]. cbn [fst] in Hres.
  destruct Hres as [(_ & Hw2 & _) ->].
  destruct o as [v|reason]; [|done].
  cbn [resume_all resume task_rest task_promise].
  set (others := List.filter _ (waiting w2)).
  rewrite (exec_deactivate_rest v (set_waiting others w2) (worker_of context) Hw2).
  done.
Qed.

Lemma deactivate_stops_client_then_worker_witness :
  let w := (execution ∅ example_settings "/home/user" example_context []).1 in
  let ts' := [ConfigurationChanged example_settings editor_changed] in
  let '(w1, t1) := turn Deactivate w in
  let '(w2, _) := turns ts' w1 in
  let '(_, t3) := turn (PromiseSettled (S (next_promise w)) (Fulfilled VUndefined)) w2 in
  t1 = [Call Client_read (Some (client_of example_context));
        Call (Client_stop (client_of example_context)) (S (next_promise w))] ∧
  t3 = [Call GetWorker (Some (worker_of example_context));
        Call (Worker_send (worker_of example_context) Msg_exit) ();
        Settled (next_promise w) (Fulfilled VUndefined)].
Proof.
  apply (deactivate_stops_client_then_worker ∅ example_settings "/home/user"
           example_context []
           [ConfigurationChanged example_settings editor_changed]
           (Fulfilled VUndefined)).
  vm_compute. reflexivity.
Defined.

(** ** The configuration listener in an execution *)

(** X6. In every execution, if the promise [updated] of
    [connectionManager.onConfigurationUpdated()] is rejected, the listener
    stops at its [await]: the turn in which [updated] settles consists of
    the listener's own promise being rejected with the same reason.  The
    tree is not refreshed, no message goes to the worker, and the part
    for [cloudshell] is skipped even if the change affects it, so
    [process.env] is as before. *)
Theorem rejected_update_stops_listener
    (env : gmap string string) (config : string → gmap string JsValue)
    (home : string) (context : ExtensionContext) (ts : list Turn)
    (new_settings : string → gmap string JsValue)
    (e : ConfigurationChangeEvent) (ts' : list Turn) (reason : JsValue) :
  let w := (execution env config home context ts).1 in
  let updated := S (next_promise w) in
  affectsConfiguration e "malloy" = true →
  forallb (λ t, negb (settles updated t)) ts' = true →
  let '(w1, _) := turn (ConfigurationChanged new_settings e) w in
  let '(w2, _) := turns ts' w1 in
  let '(w3, t3) := turn (PromiseSettled updated (Rejected reason)) w2 in
  t3 = [Settled (next_promise w) (Rejected reason)] ∧
  process_env w3 = process_env w2.
Proof.
  intros w updated Hm Hts. subst updated.
  pose proof (executions_stay_activated env config home context ts) as Hact.
  fold w in Hact. pose proof Hact as (Hl & _).
  pose proof (parked_function_resumed context
                (ConfigurationChanged new_settings e) w
                (listener_rest (connectionsTree_of context) e) ts'
                (Rejected reason) Hact) as Hres.
  unfold turn at 1 2 in Hres. unfold turn at 1.
  cbn [configuration_listeners set_settings] in *. rewrite Hl in *.
  cbn [notify] in *.
  pose proof (listener_parks (connectionsTree_of context) e
                (set_settings new_settings w) Hm) as Hcall.
  cbn [next_promise waiting set_settings] in Hcall. rewrite Hcall in *.
  cbn [fst] in Hres. specialize (Hres eq_refl Hts).
  set (w1 := set_waiting _ _) in *.
  destruct (turns ts' w1) as [w2 t2]. cbn [fst] in Hres.
  by destruct Hres as [_ ->].
Qed.

Lemma rejected_update_stops_listener_witness :
  let w := (execution ∅ example_settings "/home/user" example_context []).1 in
  let e := {| affectsConfiguration := λ _, true |} in
  let ts' := [RequestReceived "malloy/fetchFile" example_request] in
  let '(w1, _) := turn (ConfigurationChanged example_settings e) w in
  let '(w2, _) := turns ts' w1 in
  let '(w3, t3) :=
    turn (PromiseSettled (S (next_promise w)) (Rejected (VString "no connection")))
      w2 in
  t3 = [Settled (next_promise w) (Rejected (VString "no connection"))] ∧
  process_env w3 = process_env w2.
Proof.
  apply (rejected_update_stops_listener ∅ example_settings "/home/user"
           example_context [] example_settings
           {| affectsConfiguration := λ _, true |}
           [RequestReceived "malloy/fetchFile" example_request]
           (VString "no connection")).
  - reflexivity.
  - vm_compute. reflexivity.
Defined.

(** X7. In every execution a configuration change that does not affect
    [malloy] is dealt with in its own turn: the listener runs
    [cloudshellEnv] on the new settings if the change affects
    [cloudshell] and makes no call otherwise, its promise is fulfilled in
    the same turn, and no function is left parked by it.
    [connectionManager.onConfigurationUpdated] is not called, the tree is
    not refreshed and nothing is sent to the worker. *)
Theorem other_change_completes_in_its_turn
    (env : gmap string string) (config : string → gmap string JsValue)
    (home : string) (context : ExtensionContext) (ts : list Turn)
    (new_settings : string → gmap string JsValue)
    (e : ConfigurationChangeEvent) :
  let w := (execution env config home context ts).1 in
  let w0 := set_settings new_settings w in
  affectsConfiguration e "malloy" = false →
  let '(w1, t1) := turn (ConfigurationChanged new_settings e) w in
  t1 = (if affectsConfiguration e "cloudshell" then cloudshellEnv_calls w0 else [])
       ++ [Settled (next_promise w) (Fulfilled VUndefined)] ∧
  process_env w1 =
    (if affectsConfiguration e "cloudshell"
     then process_env (exec cloudshellEnv w0).1.2 else process_env w) ∧
  waiting w1 = waiting w.
Proof.
  intros w w0 Hm. subst w0.
  pose proof (executions_stay_activated env config home context ts) as Hact.
  fold w in Hact. destruct Hact as (Hl & _).
  unfold turn. cbn [configuration_listeners set_settings]. rewrite Hl.
  cbn [notify]. unfold call_async, fresh_promise.
  destruct (affectsConfiguration e "cloudshell") eqn:Hc.
  - rewrite (cloudshell_change_runs_cloudshellEnv _ e _ Hm Hc).
    unfold cloudshellEnv_calls. cbn.
    by setting_cases (new_settings "cloudcode").
  - unfold listener_body. by rewrite Hm, Hc.
Qed.

Lemma other_change_completes_in_its_turn_witness :
  let w := (execution ∅ example_settings "/home/user" example_context []).1 in
  let e := {| affectsConfiguration := λ section, String.eqb section "cloudshell" |} in
  let w0 := set_settings example_settings w in
  let '(w1, t1) := turn (ConfigurationChanged example_settings e) w in
  t1 = (if affectsConfiguration e "cloudshell" then cloudshellEnv_calls w0 else [])
       ++ [Settled (next_promise w) (Fulfilled VUndefined)] ∧
  process_env w1 =
    (if affectsConfiguration e "cloudshell"
     then process_env (exec cloudshellEnv w0).1.2 else process_env w) ∧
  waiting w1 = waiting w.
Proof.
  apply (other_change_completes_in_its_turn ∅ example_settings "/home/user"
           example_context [] example_settings
           {| affectsConfiguration := λ section, String.eqb section "cloudshell" |}).
  reflexivity.
Defined.

(** X8. The rest of the listener run with no worker registered: the tree
    is refreshed, then [getWorker().send] throws on [undefined] before
    the configuration is read; nothing is sent, the part for [cloudshell]
    is not reached, and the listener's promise is rejected. *)
Theorem listener_without_worker
    (tree : ConnectionsProvider) (e : ConfigurationChangeEvent)
    (v : JsValue) (q : Promise) (w : World) :
  getWorker w = None →
  ∃ error,
    resume (Fulfilled v) {| task_promise := q; task_rest := listener_rest tree e |} w
    = (w, [Call (Refresh tree) (); Call GetWorker None;
           Settled q (Rejected error)]).
Proof.
  intros Hw. unfold listener_rest. cbn. rewrite Hw. cbn. by eexists.
Qed.

Lemma listener_without_worker_witness :
  ∃ error,
    resume (Fulfilled VUndefined)
      {| task_promise := 0;
         task_rest := listener_rest (connectionsTree_of example_context)
                        {| affectsConfiguration := λ _, true |} |}
      (startup ∅ example_settings "/home/user")
    = (startup ∅ example_settings "/home/user",
       [Call (Refresh (connectionsTree_of example_context)) ();
        Call GetWorker None; Settled 0 (Rejected error)]).
Proof.
  apply (listener_without_worker (connectionsTree_of example_context)
           {| affectsConfiguration := λ _, true |} VUndefined 0
           (startup ∅ example_settings "/home/user")).
  reflexivity.
Defined.

(** ** [cloudshellEnv] and the places it is called from *)

Lemma cloudshellEnv_runs_once (w : World) :
  cloudshellEnv_runs (cloudshellEnv_calls w) = 1.
Proof.
  unfold cloudshellEnv_calls. cbn. by setting_cases (settings w "cloudcode").
Qed.

(** The rest of the listener for a change that affects [cloudshell],
    resumed in a world where a worker is registered, runs [cloudshellEnv]
    once, there. *)
Lemma resume_listener_rest_cloudshell tree e v q w worker :
  getWorker w = Some worker →
  affectsConfiguration e "cloudshell" = true →
  let '(w', t) :=
    resume (Fulfilled v) {| task_promise := q; task_rest := listener_rest tree e |}
      w in
  process_env w' = process_env (exec cloudshellEnv w).1.2 ∧
  cloudshellEnv_runs t = 1.
Proof.
  intros Hw Hc. unfold listener_rest. cbn. rewrite Hw. cbn. rewrite Hc. cbn.
  setting_cases (settings w "cloudcode"); cbn; split; exact eq_refl.
Qed.

(** C3, as stated, at a concrete world: the setting is a truthy string
    with a NUL character in it, and after [cloudshellEnv] the variable
    holds the part before the NUL, not the setting. *)
Lemma cloudshellEnv_cuts_project_at_NUL :
  let p := "p" +:+ String Ascii.zero "q" in
  let w := startup ∅ (λ section,
                        if String.eqb section "cloudcode"
                        then {[ "cloudshell.project" := VString p ]}
                        else ∅) "/home/user" in
  cloudShellProject w = VString p ∧
  truthy (VString p) && String.eqb (typeof (VString p)) "string" = true ∧
  process_env (exec cloudshellEnv w).1.2 !! "DEVSHELL_PROJECT_ID" = Some "p" ∧
  process_env (exec cloudshellEnv w).1.2 !! "DEVSHELL_PROJECT_ID" ≠ Some p.
Proof. vm_compute. by repeat split. Qed.

(** C3, amended. A run of [cloudshellEnv] returns; if the setting
    [cloudshell.project] of the section [cloudcode] is a truthy value of
    type string, it is a string [p] and the three variables
    [DEVSHELL_PROJECT_ID], [GOOGLE_CLOUD_PROJECT] and
    [GOOGLE_CLOUD_QUOTA_PROJECT] hold [p] up to its first NUL character
    afterwards ([p] itself when it has none), every other variable being
    as before; otherwise nothing at all is changed.

    [cloudshellEnv] runs in these places.  [activate] runs it once: what
    [activate] makes of [process.env] is what that run makes of it.  In
    every execution a configuration change that affects [cloudshell] makes
    the listener run it once: in the turn of the change, on the new
    settings, if the change does not affect [malloy]; if it does, not in
    the turn of the change but, whatever turns [ts'] come in between, in
    the turn in which the promise [updated] of
    [connectionManager.onConfigurationUpdated()] is fulfilled, on the
    settings and the environment current then. *)
Theorem cloudshellEnv_sets_project
    (env : gmap string string) (config : string → gmap string JsValue)
    (home : string) (context : ExtensionContext) (ts : list Turn)
    (new_settings : string → gmap string JsValue)
    (e : ConfigurationChangeEvent) (ts' : list Turn) (v : JsValue) :
  let w := (execution env config home context ts).1 in
  let updated := S (next_promise w) in
  affectsConfiguration e "cloudshell" = true →
  forallb (λ t, negb (settles updated t)) ts' = true →
  (∀ w0 : World,
     let v0 := cloudShellProject w0 in
     let '(s, w0', _) := exec cloudshellEnv w0 in
     s = Returned () ∧
     if truthy v0 && String.eqb (typeof v0) "string" then
       ∃ p, v0 = VString p ∧
            process_env w0' !! "DEVSHELL_PROJECT_ID" = Some (c_string p) ∧
            process_env w0' !! "GOOGLE_CLOUD_PROJECT" = Some (c_string p) ∧
            process_env w0' !! "GOOGLE_CLOUD_QUOTA_PROJECT" = Some (c_string p) ∧
            (Ascii.zero ∉ String.list_ascii_of_string p → c_string p = p) ∧
            ∀ name, name ∉ ["DEVSHELL_PROJECT_ID"; "GOOGLE_CLOUD_PROJECT";
                            "GOOGLE_CLOUD_QUOTA_PROJECT"] →
                    process_env w0' !! name = process_env w0 !! name
     else w0' = w0) ∧
  (∀ w0 : World,
     let '(_, w0', t) := exec (activate context) w0 in
     process_env w0' = process_env (exec cloudshellEnv w0).1.2 ∧
     cloudshellEnv_runs t = 1) ∧
  let '(w1, t1) := turn (ConfigurationChanged new_settings e) w in
  if affectsConfiguration e "malloy" then
    process_env w1 = process_env w ∧
    cloudshellEnv_runs t1 = 0 ∧
    let '(w2, _) := turns ts' w1 in
    let '(w3, t3) := turn (PromiseSettled updated (Fulfilled v)) w2 in
    process_env w3 = process_env (exec cloudshellEnv w2).1.2 ∧
    cloudshellEnv_runs t3 = 1
  else
    process_env w1 =
      process_env (exec cloudshellEnv (set_settings new_settings w)).1.2 ∧
    cloudshellEnv_runs t1 = 1.
Proof.
  intros w updated Hc Hts. subst updated.
  split.
  { intros w0. pose proof (cloudshellEnv_run w0) as Hrun. cbn zeta in *.
    destruct (exec cloudshellEnv w0) as [[s w0'] t0].
    destruct Hrun as [Hs Hrun]. split; [done|].
    destruct (truthy _ && _); [|done].
    destruct Hrun as (p & Hp & H1 & H2 & H3 & Hothers).
    exists p. split_and!; try done. apply c_string_without_NUL. }
  split.
  { intros w0. pose proof (cloudshellEnv_runs_once w0) as Hruns.
    revert Hruns. unfold cloudshellEnv_calls. cbn.
    setting_cases (settings w0 "cloudcode"); intros _; split; exact eq_refl. }
  pose proof (executions_stay_activated env config home context ts) as Hact.
  fold w in Hact. pose proof Hact as (Hl & _).
  destruct (affectsConfiguration e "malloy") eqn:Hm.
  - pose proof (parked_function_resumed context
                  (ConfigurationChanged new_settings e) w
                  (listener_rest (connectionsTree_of context) e) ts'
                  (Fulfilled v) Hact) as Hres.
    unfold turn at 1 2 in Hres. unfold turn at 1.
    cbn [configuration_listeners set_settings] in *. rewrite Hl in *.
    cbn [notify] in *.
    pose proof (listener_parks (connectionsTree_of context) e
                  (set_settings new_settings w) Hm) as Hcall.
    cbn [next_promise waiting set_settings] in Hcall. rewrite Hcall in *.
    cbn [fst] in Hres. specialize (Hres eq_refl Hts).
    split; [done|]. split; [done|].
    set (w1 := set_waiting _ _) in *.
    destruct (turns ts' w1) as [w2 t2]. cbn [fst] in Hres.
    destruct Hres as [(_ & Hw2 & _) ->].
    set (others := List.filter _ (waiting w2)).
    pose proof (resume_listener_rest_cloudshell (connectionsTree_of context) e v
                  (next_promise w) (set_waiting others w2) (worker_of context)
                  Hw2 Hc) as Hrest.
    cbn [resume_all].
    destruct (resume _ _ (set_waiting others w2)) as [w3 t3].
    destruct Hrest as [Henv Hruns]. rewrite app_nil_r. split; [|done].
    rewrite Henv. by apply cloudshellEnv_process_env_depends.
  - unfold turn. cbn [configuration_listeners set_settings]. rewrite Hl.
    cbn [notify]. unfold call_async, fresh_promise.
    rewrite (cloudshell_change_runs_cloudshellEnv _ e _ Hm Hc).
    pose proof (cloudshellEnv_runs_once (set_settings new_settings w)) as Hruns.
    revert Hruns. unfold cloudshellEnv_calls. cbn.
    setting_cases (new_settings "cloudcode"); intros _; split; exact eq_refl.
Qed.

Lemma cloudshellEnv_sets_project_witness :
  let w := (execution ∅ example_settings "/home/user" example_context []).1 in
  let updated := S (next_promise w) in
  let e := {| affectsConfiguration := λ _, true |} in
  let ts' := [RequestReceived "malloy/fetchFile" example_request] in
  (∀ w0 : World,
     let v0 := cloudShellProject w0 in
     let '(s, w0', _) := exec cloudshellEnv w0 in
     s = Returned () ∧
     if truthy v0 && String.eqb (typeof v0) "string" then
       ∃ p, v0 = VString p ∧
            process_env w0' !! "DEVSHELL_PROJECT_ID" = Some (c_string p) ∧
            process_env w0' !! "GOOGLE_CLOUD_PROJECT" = Some (c_string p) ∧
            process_env w0' !! "GOOGLE_CLOUD_QUOTA_PROJECT" = Some (c_string p) ∧
            (Ascii.zero ∉ String.list_ascii_of_string p → c_string p = p) ∧
            ∀ name, name ∉ ["DEVSHELL_PROJECT_ID"; "GOOGLE_CLOUD_PROJECT";
                            "GOOGLE_CLOUD_QUOTA_PROJECT"] →
                    process_env w0' !! name = process_env w0 !! name
     else w0' = w0) ∧
  (∀ w0 : World,
     let '(_, w0', t) := exec (activate example_context) w0 in
     process_env w0' = process_env (exec cloudshellEnv w0).1.2 ∧
     cloudshellEnv_runs t = 1) ∧
  let '(w1, t1) := turn (ConfigurationChanged example_settings e) w in
  if affectsConfiguration e "malloy" then
    process_env w1 = process_env w ∧
    cloudshellEnv_runs t1 = 0 ∧
    let '(w2, _) := turns ts' w1 in
    let '(w3, t3) := turn (PromiseSettled updated (Fulfilled VUndefined)) w2 in
    process_env w3 = process_env (exec cloudshellEnv w2).1.2 ∧
    cloudshellEnv_runs t3 = 1
  else
    process_env w1 =
      process_env (exec cloudshellEnv (set_settings example_settings w)).1.2 ∧
    cloudshellEnv_runs t1 = 1.
Proof.
  apply (cloudshellEnv_sets_project ∅ example_settings "/home/user"
           example_context [] example_settings
           {| affectsConfiguration := λ _, true |}
           [RequestReceived "malloy/fetchFile" example_request] VUndefined).
  - reflexivity.
  - vm_compute. reflexivity.
Defined.

(** ** [process.env] *)

(** X9. In every execution in which no configuration change affects
    [cloudshell], [process.env] is what the one call of [cloudshellEnv]
    by [activate] made of the environment of the host: no other code of
    the file writes an environment variable, whatever requests,
    [malloy] changes, settled promises and calls of [deactivate] there
    are. *)
Theorem environment_written_only_for_cloudshell
    (env : gmap string string) (config : string → gmap string JsValue)
    (home : string) (context : ExtensionContext) (ts : list Turn) :
  forallb (λ t, negb (affects_cloudshell t)) ts = true →
  process_env (execution env config home context ts).1 =
  process_env (exec cloudshellEnv (startup env config home)).1.2.
Proof.
  intros Hts. rewrite execution_snoc.
  destruct (activate_parks_one env config home context) as (Hw & _).
  pose proof (activate_activates env config home context) as Hact.
  transitivity (process_env (execution env config home context []).1).
  - eapply (turns_keep process_env no_promise (λ t, negb (affects_cloudshell t))).
    + done.
    + intros [tree] new_settings e He w. apply negb_true_iff in He.
      cbn in He |- *. rewrite He.
      destruct (affectsConfiguration e "malloy"); cbn; [|done].
      split; [done|]. intros v w2. cbn. by destruct (getWorker w2).
    + by apply handler_keeps_static.
    + intros _. by apply deactivate_keeps_static.
    + exact Hact.
    + unfold parked_keep. rewrite Hw. constructor; [|constructor]. by right.
    + clear -Hts. induction ts as [|t ts IH]; [done|].
      cbn in *. apply andb_prop in Hts as [-> Hts]. rewrite (IH Hts).
      by destruct t as [| |? []|].
  - unfold execution. cbn. by setting_cases (config "cloudcode").
Qed.

Lemma environment_written_only_for_cloudshell_witness :
  let ts := [ConfigurationChanged (λ _, ∅) malloy_changed;
             RequestReceived "malloy/fetchFile" example_request;
             PromiseSettled 3 (Fulfilled VUndefined);
             Deactivate] in
  process_env (execution ∅ example_settings "/home/user" example_context ts).1 =
  process_env (exec cloudshellEnv (startup ∅ example_settings "/home/user")).1.2.
Proof.
  apply (environment_written_only_for_cloudshell ∅ example_settings "/home/user"
           example_context
           [ConfigurationChanged (λ _, ∅) malloy_changed;
            RequestReceived "malloy/fetchFile" example_request;
            PromiseSettled 3 (Fulfilled VUndefined);
            Deactivate]).
  reflexivity.
Defined.

(** X10. [cloudshellEnv] is idempotent: run a second time, with the
    settings unchanged, it makes the same calls and leaves [process.env]
    as the first run left it. *)
Theorem cloudshellEnv_idempotent (w : World) :
  let w1 := (exec cloudshellEnv w).1.2 in
  cloudshellEnv_calls w1 = cloudshellEnv_calls w ∧
  process_env (exec cloudshellEnv w1).1.2 = process_env w1.
Proof.
  intros w1.
  assert (settings w1 = settings w) as Hs.
  { subst w1. cbn. by setting_cases (settings w "cloudcode"). }
  split; [by apply cloudshellEnv_calls_settings|].
  rewrite (cloudshellEnv_process_env w1). unfold cloudShellProject.
  rewrite Hs. subst w1. rewrite (cloudshellEnv_process_env w).
  unfold cloudShellProject.
  destruct (config_get (settings w "cloudcode") "cloudshell.project")
    as [| | | | |[|a s]|]; try done.
  apply map_eq. intros name.
  destruct (decide (name = "GOOGLE_CLOUD_QUOTA_PROJECT")) as [->|?];
    [by simplify_map_eq|].
  destruct (decide (name = "GOOGLE_CLOUD_PROJECT")) as [->|?];
    [by simplify_map_eq|].
  destruct (decide (name = "DEVSHELL_PROJECT_ID")) as [->|?];
    by simplify_map_eq.
Qed.

(** ** Messages to the worker, in every execution *)

Lemma sends_app ok (t1 t2 : list Event) :
  sends ok t1 → sends ok t2 → sends ok (t1 ++ t2).
Proof.
  unfold sends, worker_messages. intros H1 H2.
  rewrite omap_app. by apply Forall_app.
Qed.

Lemma sends_settled ok (t : list Event) (q : Promise) (o : Outcome) :
  sends ok t → sends ok (t ++ [Settled q o]).
Proof. intros H. apply sends_app; [done|constructor]. Qed.

Section Messages.
Context (ok : WorkerConnection * WorkerMessage → Prop).
Context (context : ExtensionContext) (quiet : Turn → bool).
Hypothesis listener_sends :
  ∀ l e, body_sends ok (worker_of context) (listener_body l e).
Hypothesis deactivate_sends :
  quiet Deactivate = true → body_sends ok (worker_of context) deactivate.

Lemma handler_sends h event :
  body_sends ok (worker_of context) (handler_body h event).
Proof.
  intros w _. destruct h; cbn; (split; [constructor|]);
    intros v w2 _; constructor.
Qed.

Lemma call_async_sends body w :
  awaits_once body → body_sends ok (worker_of context) body →
  activated_by context w → parked_send ok (worker_of context) w →
  sends ok (call_async body w).2 ∧
  parked_send ok (worker_of context) (call_async body w).1.
Proof.
  intros Honce Hbody (_ & Hw & _) Hparked. unfold call_async. cbn.
  specialize (Honce (set_next_promise (S (next_promise w)) w)).
  specialize (Hbody (set_next_promise (S (next_promise w)) w) Hw).
  destruct (exec body _) as [[s w1] t1].
  destruct Honce as ((_ & _ & Hwait1 & _) & _ & _).
  destruct Hbody as [Ht Hk]. cbn in Hwait1.
  unfold parked_send in *.
  destruct s as [r|r|p k]; cbn.
  - split; [by apply sends_settled|by rewrite Hwait1].
  - split; [by apply sends_settled|by rewrite Hwait1].
  - rewrite app_nil_r. split; [done|].
    rewrite Hwait1. apply Forall_app. split; [done|].
    by constructor.
Qed.

Lemma resume_sends o t w :
  rest_sends ok (worker_of context) (task_rest t) →
  getWorker w = Some (worker_of context) →
  sends ok (resume o t w).2.
Proof.
  intros Hk Hw. destruct o as [v|r]; cbn; [|constructor].
  specialize (Hk v w Hw).
  destruct (exec (task_rest t v) w) as [[s w1] t1]. cbn in Hk.
  destruct s; cbn; rewrite ?app_nil_r; try done; by apply sends_settled.
Qed.

Lemma resume_all_sends o ts w :
  Forall (λ t, runs_to_the_end (task_rest t) ∧
               rest_sends ok (worker_of context) (task_rest t)) ts →
  getWorker w = Some (worker_of context) →
  sends ok (resume_all o ts w).2.
Proof.
  intros Hts. revert w. induction Hts as [|t ts [Hend Hk] _ IH]; intros w Hw; cbn.
  - constructor.
  - pose proof (resume_sends o t w Hk Hw) as H1.
    pose proof (resume_ok o t w Hend) as H2.
    destruct (resume o t w) as [w1 t1]. destruct H2 as [(_ & Hw1 & _) _].
    assert (getWorker w1 = Some (worker_of context)) as Hw1'
      by (unfold getWorker in *; congruence).
    specialize (IH w1 Hw1').
    destruct (resume_all o ts w1) as [w2 t2]. cbn in *.
    by apply sends_app.
Qed.

Lemma turn_sends t w :
  activated_by context w → parked_send ok (worker_of context) w →
  quiet t = true →
  sends ok (turn t w).2 ∧ parked_send ok (worker_of context) (turn t w).1.
Proof.
  intros Hact Hparked Hquiet.
  destruct t as [new_settings e|method params|p o|].
  - pose proof Hact as (Hl & Hw & Hp).
    unfold turn. cbn [configuration_listeners set_settings]. rewrite Hl.
    cbn [notify].
    assert (activated_by context (set_settings new_settings w)) as Hact' by done.
    assert (parked_send ok (worker_of context) (set_settings new_settings w))
      as Hparked' by done.
    pose proof (call_async_sends
                  (listener_body (activate_listener (connectionsTree_of context)) e)
                  (set_settings new_settings w)
                  (listener_awaits_once _ e) (listener_sends _ e) Hact' Hparked')
      as Hcall.
    destruct (call_async _ (set_settings new_settings w)) as [w1 t1].
    cbn in *. by rewrite app_nil_r.
  - unfold turn. destruct (request_handlers w !! method) as [h|].
    + apply call_async_sends; auto using handler_awaits_once, handler_sends.
    + split; [constructor|done].
  - pose proof Hact as (_ & Hw & Hp).
    unfold turn.
    set (woken := List.filter (awaits p) (waiting w)).
    set (others := List.filter (λ entry, negb (awaits p entry)) (waiting w)).
    assert (Forall (λ t, runs_to_the_end (task_rest t) ∧
                         rest_sends ok (worker_of context) (task_rest t))
              (woken.*2)) as Hwoken.
    { apply Forall_fmap. apply Forall_List_filter.
      unfold well_parked, parked_send in *.
      apply Forall_and. split.
      - eapply Forall_impl; [exact Hp|]. by intros entry [_ H].
      - done. }
    pose proof (resume_all_sends o (woken.*2) (set_waiting others w) Hwoken Hw)
      as Hsends.
    assert (Forall (λ t, runs_to_the_end (task_rest t)) (woken.*2)) as Hends.
    { eapply Forall_impl; [exact Hwoken|]. by intros t [H _]. }
    pose proof (resume_all_ok o (woken.*2) (set_waiting others w) Hends) as Hres.
    destruct (resume_all o _ (set_waiting others w)) as [w1 t1].
    destruct Hres as ((_ & _ & Hwait1 & _) & _). cbn in *.
    split; [done|]. unfold parked_send. rewrite Hwait1.
    by apply Forall_List_filter.
  - unfold turn. apply call_async_sends; auto using deactivate_awaits_once.
Qed.

Lemma turns_send ts w :
  activated_by context w → parked_send ok (worker_of context) w →
  forallb quiet ts = true →
  sends ok (turns ts w).2.
Proof.
  revert w. induction ts as [|t ts IH]; intros w Hact Hparked Hts; [constructor|].
  cbn -[turn] in *. apply andb_prop in Hts as [Ht Hts].
  destruct (turn_sends t w Hact Hparked Ht) as [H1 H2].
  pose proof (turn_keeps_activated context t w Hact) as Hturn.
  destruct (turn t w) as [w1 t1]. destruct Hturn as [(Hact1 & _) _]. cbn in *.
  specialize (IH w1 Hact1 H2 Hts).
  destruct (turns ts w1) as [w2 t2]. cbn in *. by apply sends_app.
Qed.

Hypothesis config_ok : ∀ c, ok (worker_of context, Msg_config c).

Lemma execution_sends env config home ts :
  forallb quiet ts = true →
  sends ok (execution env config home context ts).2.
Proof.
  intros Hts.
  destruct (activate_parks_one env config home context) as (Hw & _).
  pose proof (activate_activates env config home context) as Hact.
  assert (sends ok (execution env config home context []).2) as Ha.
  { unfold execution, sends. cbn. setting_cases (config "cloudcode"); cbn.
    all: constructor; [apply config_ok|constructor]. }
  pose proof (execution_app env config home context [] ts) as Happ.
  cbn [app] in Happ. rewrite Happ.
  destruct (execution env config home context []) as [wa ta]. cbn [fst snd] in *.
  assert (parked_send ok (worker_of context) wa) as Hparked.
  { unfold parked_send. rewrite Hw. constructor; [|constructor].
    intros v w _. constructor. }
  pose proof (turns_send ts wa Hact Hparked Hts) as Hturns.
  destruct (turns ts wa) as [w2 t2]. by apply sends_app.
Qed.
End Messages.

Lemma listener_sends_config ok context :
  (∀ c, ok (worker_of context, Msg_config c)) →
  ∀ l e, body_sends ok (worker_of context) (listener_body l e).
Proof.
  intros Hok [tree] e w Hw. cbn.
  destruct (affectsConfiguration e "malloy"),
           (affectsConfiguration e "cloudshell"); cbn.
  - split; [constructor|]. intros v w2 Hw2. cbn. rewrite Hw2. cbn.
    setting_cases (settings w2 "cloudcode"); cbn;
      (constructor; [apply Hok|constructor]).
  - split; [constructor|]. intros v w2 Hw2. cbn. rewrite Hw2. cbn.
    constructor; [apply Hok|constructor].
  - setting_cases (settings w "cloudcode"); cbn; split; (done || constructor).
  - split; (done || constructor).
Qed.

(** X11. In every execution every message sent to a worker, by
    [activate] or in any later turn, is sent to the worker [setupWorker]
    created and registered. *)
Theorem messages_go_to_the_registered_worker
    (env : gmap string string) (config : string → gmap string JsValue)
    (home : string) (context : ExtensionContext) (ts : list Turn) :
  sends (λ message, message.1 = worker_of context)
    (execution env config home context ts).2.
Proof.
  apply (execution_sends _ context (λ _, true)).
  - by apply listener_sends_config.
  - intros _ w Hw. cbn. destruct (client w) as [c|] eqn:Hc; cbn.
    + split; [constructor|]. intros v w2 Hw2. cbn. rewrite Hw2. cbn.
      by repeat constructor.
    + rewrite Hw. cbn. split; [|done]. by repeat constructor.
  - done.
  - by induction ts.
Qed.

(** X12. In every execution without a call of [deactivate] no
    [{type: 'exit'}] message is sent: the worker is told to exit by
    [deactivate] and by nothing else in the file. *)
Theorem exit_sent_only_by_deactivate
    (env : gmap string string) (config : string → gmap string JsValue)
    (home : string) (context : ExtensionContext) (ts : list Turn) :
  forallb (λ t, negb (is_deactivate t)) ts = true →
  sends (λ message, message.2 ≠ Msg_exit)
    (execution env config home context ts).2.
Proof.
  apply (execution_sends _ context (λ t, negb (is_deactivate t))).
  - by apply listener_sends_config.
  - done.
  - done.
Qed.

Lemma exit_sent_only_by_deactivate_witness :
  sends (λ message, message.2 ≠ Msg_exit)
    (execution ∅ example_settings "/home/user" example_context
       [ConfigurationChanged example_settings malloy_changed;
        PromiseSettled 1 (Fulfilled VUndefined);
        RequestReceived "malloy/fetchFile" example_request;
        PromiseSettled 3 (Fulfilled VUndefined)]).2.
Proof.
  apply (exit_sent_only_by_deactivate ∅ example_settings "/home/user"
           example_context
           [ConfigurationChanged example_settings malloy_changed;
            PromiseSettled 1 (Fulfilled VUndefined);
            RequestReceived "malloy/fetchFile" example_request;
            PromiseSettled 3 (Fulfilled VUndefined)]).
  reflexivity.
Defined.
